(** * Koa request-handling core: a shallow embedding and its properties

    The embedding follows [lib/application.js], [lib/request.js] and the
    context prototype (with its [onerror] recovery routine).  JavaScript
    objects that are shared by reference between the context and its two
    facades (the raw request [req], the raw response [res], the application)
    are kept in one explicit state record that every getter reads and every
    setter returns updated.

    Strings are sequences of code units in the Latin-1 range, which is what
    the HTTP parser of the runtime produces for header values. *)

From Stdlib Require Import ZArith Lia Ascii.
From stdpp Require Import base option list gmap strings pretty.

Local Open Scope Z_scope.

(** ** JavaScript values and built-ins used by the sources *)

Module Js.

(** The primitive values an error property can hold. *)
Inductive value :=
| Undefined
| Null
| Bool (b : bool)
| Num (n : Z)
| Str (s : string).

Global Instance value_eq_dec : EqDecision value.
Proof. solve_decision. Defined.

(** [ToBoolean]. *)
Definition truthy (v : value) : bool :=
  match v with
  | Undefined | Null => false
  | Bool b => b
  | Num n => negb (n =? 0)
  | Str s => negb (bool_decide (s = ""))
  end.

(** [a || b]. *)
Definition or (a b : value) : value := if truthy a then a else b.

(** [typeof v === 'number']. *)
Definition is_number (v : value) : bool :=
  match v with Num _ => true | _ => false end.

(** Truthiness of a string: only the empty string is falsy. *)
Definition str_truthy (s : string) : bool := negb (bool_decide (s = "")).

(** [a || b] where [a] is a string or [undefined] and [b] is a string. *)
Definition str_or (a : option string) (b : string) : string :=
  match a with
  | Some s => if str_truthy s then s else b
  | None => b
  end.

(** Truthiness of a property that is a string or [undefined]. *)
Definition ostr_truthy (a : option string) : bool :=
  match a with Some s => str_truthy s | None => false end.

(** The white space class [\s] on Latin-1 code units. *)
Definition is_space (c : ascii) : bool :=
  match c with
  | "009" | "010" | "011" | "012" | "013" | " " | "160" => true
  | _ => false
  end%char.

(** [String.prototype.toLowerCase] on one Latin-1 code unit. *)
Definition lower_char (c : ascii) : ascii :=
  let n := N_of_ascii c in
  if ((65 <=? n) && (n <=? 90))%N then ascii_of_N (n + 32)
  else if ((192 <=? n) && (n <=? 222) && negb (n =? 215))%N
       then ascii_of_N (n + 32)
  else c.

Fixpoint toLowerCase (s : string) : string :=
  match s with
  | EmptyString => EmptyString
  | String c s' => String (lower_char c) (toLowerCase s')
  end.

(** [Buffer.byteLength(s)]: the length of the UTF-8 encoding. *)
Fixpoint byteLength (s : string) : Z :=
  match s with
  | EmptyString => 0
  | String c s' =>
      (if (N_of_ascii c <? 128)%N then 1 else 2) + byteLength s'
  end.

(** [String(n)] for an integer. *)
Definition String_of (n : Z) : string := pretty n.

(** [s.split(sep)] for a separator of one code unit. *)
Fixpoint split_char (sep : ascii) (s : string) : list string :=
  match s with
  | EmptyString => [EmptyString]
  | String c s' =>
      if bool_decide (c = sep) then EmptyString :: split_char sep s'
      else match split_char sep s' with
           | piece :: rest => String c piece :: rest
           | [] => [String c EmptyString]
           end
  end.

(** Longest prefix matched by [\s*]. *)
Fixpoint skip_ws (s : string) : string :=
  match s with
  | EmptyString => EmptyString
  | String c s' => if is_space c then skip_ws s' else s
  end.

(** A sticky match of [/\s*,\s*/] at the head of [s]; the result is what
    follows the match.  Both stars are greedy, and backtracking the first
    one cannot help because a comma is not white space. *)
Definition match_sep (s : string) : option string :=
  match skip_ws s with
  | String ","%char r => Some (skip_ws r)
  | _ => None
  end.

(** The loop of [RegExp.prototype[@@split]] for [/\s*,\s*/]: [s] is the
    input from the scan position [q] on and [cur] is the input between
    the piece start [p] and [q].  A match is never empty, so the
    [e = p] branch of the algorithm cannot be taken. *)
Fixpoint split_loop (fuel : nat) (s cur : string) : list string :=
  match fuel with
  | O => [cur +:+ s]
  | S fuel' =>
      match s with
      | EmptyString => [cur]
      | String c s' =>
          match match_sep s with
          | Some rest => cur :: split_loop fuel' rest EmptyString
          | None => split_loop fuel' s' (cur +:+ String c EmptyString)
          end
      end
  end.

(** [s.split(/\s*,\s*/)]. *)
Definition split_comma_ws (s : string) : list string :=
  split_loop (S (String.length s)) s EmptyString.

(** [arr.slice(start)]. *)
Definition slice {A} (start : Z) (l : list A) : list A :=
  let len := Z.of_nat (length l) in
  let from := if start <? 0 then Z.max (len + start) 0 else Z.min start len in
  drop (Z.to_nat from) l.

(** [arr.reverse()]. *)
Definition reverse {A} (l : list A) : list A := rev l.

(** [s.startsWith(p)]. *)
Fixpoint startsWith (p s : string) : bool :=
  match p, s with
  | EmptyString, _ => true
  | String a p', String b s' => bool_decide (a = b) && startsWith p' s'
  | String _ _, EmptyString => false
  end.

(** [/^https?:\/\//i.test(s)].  Without the unicode flag only the two
    cases of an ASCII letter match one another, and no other Latin-1 code
    unit lowers to a letter of the pattern. *)
Definition has_http_scheme (s : string) : bool :=
  startsWith "http://" (toLowerCase s) || startsWith "https://" (toLowerCase s).

(** [arr.indexOf(x)]. *)
Fixpoint indexOf_from (i : Z) (l : list string) (x : string) : Z :=
  match l with
  | [] => -1
  | y :: l' => if bool_decide (y = x) then i else indexOf_from (i + 1) l' x
  end.

Definition indexOf (l : list string) (x : string) : Z := indexOf_from 0 l x.

(** The members of [Object.prototype] whose names are in lower case.  A
    plain object that has no property of its own under such a name yields
    the member it inherits: a function for [constructor], an object for
    [__proto__]. *)
Definition object_member (name : string) : bool :=
  bool_decide (name = "constructor") || bool_decide (name = "__proto__").

(** The string of one line feed. *)
Definition LF : string := String "010"%char EmptyString.

(** The line terminators among the Latin-1 code units. *)
Definition is_line_terminator (c : ascii) : bool :=
  match c with
  | "010" | "013" => true
  | _ => false
  end%char.

(** [s.replace(/^/gm, '  ')]: the empty match at the start of the input and
    after every line terminator, the end of the input included, is replaced
    by two spaces. *)
Fixpoint indent_after (s : string) : string :=
  match s with
  | EmptyString => EmptyString
  | String c s' =>
      String c (if is_line_terminator c then "  " +:+ indent_after s'
                else indent_after s')
  end.

Definition indent_lines (s : string) : string := "  " +:+ indent_after s.

End Js.

(** ** The objects of one request *)

(** The connection handle of the transport. *)
Record Socket := mkSocket {
  encrypted : bool;
  remoteAddress : option string;
  sock_writable : bool
}.

(** The raw inbound message ([req]); [req_headers] holds the properties of
    its own that the header object has, with string values. *)
Record IncomingMessage := mkReq {
  req_method : string;
  req_url : string;
  req_headers : gmap string string;
  httpVersionMajor : Z;
  req_socket : Socket
}.

(** What [res.end] or a pipe hands to the transport. *)
Inductive Chunk :=
| Text (s : string)
| Bytes (b : string).

(** The sources [respond] pipes into the raw response. *)
Inductive Source :=
| FromStream (name : string)
| FromBlob (name : string)
| FromReadableStream (name : string)
| FromResponse (name : string).

(** The raw outbound message ([res]): status line, staged headers (names are
    kept in lower case, as [setHeader] does), the headers-sent flag, whether
    [end] was called, the payload written so far, a piped source if any and
    the number of completion observers attached. *)
Record ServerResponse := mkRes {
  statusCode : Z;
  res_headers : gmap string string;
  headersSent : bool;
  res_finished : bool;
  res_sent : list Chunk;
  res_piped : option Source;
  res_observers : nat
}.

(** The application settings read by the facades. *)
Record Application := mkApp {
  proxy : bool;
  subdomainOffset : Z;
  proxyIpHeader : string;
  maxIpsCount : Z;
  env : string;
  silent : bool
}.

(** The options object given to the constructor; [None] is an absent key. *)
Record Options := mkOptions {
  opt_proxy : option bool;
  opt_subdomainOffset : option Z;
  opt_proxyIpHeader : option string;
  opt_maxIpsCount : option Z;
  opt_env : option string
}.

(** What [JSON.stringify] makes of a structured body. *)
Inductive JsonResult :=
| JsonText (s : string)
| JsonUndefined
| JsonThrows (message : string).

(** The declared body of a response. *)
Inductive Body :=
| BodyNull
| BodyUndefined
| BodyBuffer (bytes : string)
| BodyString (s : string)
| BodyStream (name : string)
| BodyBlob (name : string)
| BodyReadableStream (name : string)
| BodyResponse (name : string)
| BodyObject (json : JsonResult).

(** A WHATWG URL object, as far as the facade reads it. *)
Record URLRecord := mkURL {
  url_href : string;
  url_hostname : string
}.

(** The value held by [memoizedURL]: a parsed URL or [Object.create(null)]. *)
Inductive URLValue :=
| ParsedURL (u : URLRecord)
| EmptyObject.

(** An error object. *)
Record Error := mkError {
  err_message : string;
  err_status : Js.value;
  err_statusCode : Js.value;
  err_code : Js.value;
  err_expose : Js.value;
  err_headers : list (string * string);
  err_headerSent : bool
}.

(** A value handed to error recovery: [null] or [undefined], a value that is
    not an error (with its [%j] rendering), or an error object. *)
Inductive Thrown :=
| ThrownNullish
| ThrownNonError (json : string)
| ThrownError (e : Error).

(** How a call ends. *)
Inductive Completion :=
| Returned
| Threw (e : Error).

(** What a getter that can raise gives: its value, or the error raised. *)
Inductive Outcome (A : Type) :=
| Value (a : A)
| Raised (e : Error).

Arguments Value {A} a.
Arguments Raised {A} e.

(** What [get(field)] returns: a string, or the member of
    [Object.prototype] that the header object inherits under that name (a
    function or an object, hence truthy and not a string). *)
Inductive Field :=
| FieldText (s : string)
| FieldMember (name : string).

(** The context with its two facades.  The facades hold no data of their own
    besides memo slots, so one record carries the shared [app], [req] and
    [res] and the slots of all three objects. *)
Record Context := mkContext {
  ctx_app : Application;
  ctx_req : IncomingMessage;
  ctx_res : ServerResponse;
  originalUrl : string;
  ctx_respond : Js.value;
  memoizedURL : option URLValue;
  ip_slot : option string;
  body_slot : Body;
  explicitNullBody : bool
}.

(** The status table of the [statuses] package: [statuses[code]] and
    [statuses.empty[code]]. *)
Record Statuses := mkStatuses {
  status_message : Z → option string;
  status_empty : Z → bool
}.

(** Field updates. *)
Definition with_res (f : ServerResponse → ServerResponse) (c : Context) : Context :=
  mkContext (ctx_app c) (ctx_req c) (f (ctx_res c)) (originalUrl c)
            (ctx_respond c) (memoizedURL c) (ip_slot c) (body_slot c)
            (explicitNullBody c).

Definition with_req (f : IncomingMessage → IncomingMessage) (c : Context) : Context :=
  mkContext (ctx_app c) (f (ctx_req c)) (ctx_res c) (originalUrl c)
            (ctx_respond c) (memoizedURL c) (ip_slot c) (body_slot c)
            (explicitNullBody c).

Definition with_memoizedURL (v : option URLValue) (c : Context) : Context :=
  mkContext (ctx_app c) (ctx_req c) (ctx_res c) (originalUrl c)
            (ctx_respond c) v (ip_slot c) (body_slot c) (explicitNullBody c).

Definition with_ip_slot (v : option string) (c : Context) : Context :=
  mkContext (ctx_app c) (ctx_req c) (ctx_res c) (originalUrl c)
            (ctx_respond c) (memoizedURL c) v (body_slot c) (explicitNullBody c).

Definition with_body_slot (b : Body) (c : Context) : Context :=
  mkContext (ctx_app c) (ctx_req c) (ctx_res c) (originalUrl c)
            (ctx_respond c) (memoizedURL c) (ip_slot c) b (explicitNullBody c).

Definition set_statusCode (n : Z) (r : ServerResponse) : ServerResponse :=
  mkRes n (res_headers r) (headersSent r) (res_finished r) (res_sent r)
        (res_piped r) (res_observers r).

Definition set_res_headers (h : gmap string string) (r : ServerResponse) : ServerResponse :=
  mkRes (statusCode r) h (headersSent r) (res_finished r) (res_sent r)
        (res_piped r) (res_observers r).

Definition set_url (u : string) (r : IncomingMessage) : IncomingMessage :=
  mkReq (req_method r) u (req_headers r) (httpVersionMajor r) (req_socket r).

(** [res.end(data)]: the head goes out with the payload and the response is
    finished; [res.end()] writes no payload. *)
Definition res_end (data : option Chunk) (r : ServerResponse) : ServerResponse :=
  mkRes (statusCode r) (res_headers r) true true
        (res_sent r ++ match data with Some d => [d] | None => [] end)
        (res_piped r) (res_observers r).

(** [source.pipe(res)]. *)
Definition res_pipe (src : Source) (r : ServerResponse) : ServerResponse :=
  mkRes (statusCode r) (res_headers r) (headersSent r) (res_finished r)
        (res_sent r) (Some src) (res_observers r).

(** [onFinished(res, listener)]. *)
Definition res_observe (r : ServerResponse) : ServerResponse :=
  mkRes (statusCode r) (res_headers r) (headersSent r) (res_finished r)
        (res_sent r) (res_piped r) (S (res_observers r)).

(** The number of payload bytes handed to the transport. *)
Definition chunk_bytes (k : Chunk) : Z :=
  match k with
  | Text s => Js.byteLength s
  | Bytes b => Z.of_nat (String.length b)
  end.

Definition payload_bytes (r : ServerResponse) : Z :=
  foldr (λ k n, chunk_bytes k + n) 0 (res_sent r).

(** ** The response facade

    [lib/response.js] is not among the sources; the members that the
    dispatcher, the finalizer and error recovery call are given here. *)

Module Response.

(** Modelled from the spec: the missing [headerSent] getter of the response
    facade, the "headers already sent" flag of the raw response. *)
Definition headerSent (c : Context) : bool := headersSent (ctx_res c).

(** Modelled from the spec: the missing [writable] getter of the response
    facade; the transport is no longer writable once the response was
    ended or the connection cannot be written to. *)
Definition writable (c : Context) : bool :=
  negb (res_finished (ctx_res c)) && sock_writable (req_socket (ctx_req c)).

(** Modelled from the spec: the missing [status] getter, the declared
    status code, which is the status of the raw response. *)
Definition status (c : Context) : Z := statusCode (ctx_res c).

(** Modelled from the spec: the missing [status] setter; the declared
    status is mutable until headers are sent, after which the mutation is
    a no-op. *)
Definition set_status (n : Z) (c : Context) : Context :=
  if headerSent c then c else with_res (set_statusCode n) c.

(** Modelled from the spec: the missing [header] getter, the staged header
    state of the response. *)
Definition header (c : Context) : gmap string string := res_headers (ctx_res c).

(** Modelled from the spec: the missing [has] method, whether a header is
    staged. *)
Definition has (field : string) (c : Context) : bool :=
  bool_decide (is_Some (res_headers (ctx_res c) !! Js.toLowerCase field)).

(** Modelled from the spec: the missing [set] method for one header,
    rejected once headers are sent. *)
Definition set (field val : string) (c : Context) : Context :=
  if headerSent c then c
  else with_res (λ r, set_res_headers (<[Js.toLowerCase field := val]> (res_headers r)) r) c.

(** Modelled from the spec: the missing [set] method applied to an object
    of headers, one [set] per entry. *)
Definition set_all (hs : list (string * string)) (c : Context) : Context :=
  foldl (λ c kv, set kv.1 kv.2 c) c hs.

(** Modelled from the spec: the missing [remove] method, rejected once
    headers are sent. *)
Definition remove (field : string) (c : Context) : Context :=
  if headerSent c then c
  else with_res (λ r, set_res_headers (delete (Js.toLowerCase field) (res_headers r)) r) c.

(** Modelled from the spec: the missing [type] setter at ['text'], which
    forces the content type to plain text. *)
Definition set_type_text (c : Context) : Context :=
  set "Content-Type" "text/plain; charset=utf-8" c.

(** Modelled from the spec: the missing [length] setter, which sets the
    content-length header. *)
Definition set_length (n : Z) (c : Context) : Context :=
  set "Content-Length" (Js.String_of n) c.

(** Modelled from the spec: the missing [length] getter when no
    content-length header is staged, the length of the declared body:
    the bytes of a text or of a buffer, the serialized byte length of a
    structured value, and no number for an absent body or a streaming
    source. *)
Definition length (c : Context) : option Z :=
  match body_slot c with
  | BodyString s => Some (Js.byteLength s)
  | BodyBuffer b => Some (Z.of_nat (String.length b))
  | BodyObject (JsonText s) => Some (Js.byteLength s)
  | _ => None
  end.

(** Modelled from the spec: the missing [message] getter, the reason
    phrase of the declared status. *)
Definition message (statuses : Statuses) (c : Context) : option string :=
  status_message statuses (status c).

(** Modelled from the spec: the missing [body] setter at [null], which
    strips the body entirely: the declared body becomes empty and the
    headers that describe a payload go with it. *)
Definition set_body_null (c : Context) : Context :=
  remove "Transfer-Encoding"
    (remove "Content-Length"
       (remove "Content-Type" (with_body_slot BodyNull c))).

End Response.

(** ** [lib/request.js] *)

Module Request.
Section Getters.

(** [new URL(s)] of the runtime; [None] when the constructor throws. *)
Variable new_URL : string → option URLRecord.
(** The [fresh] package: conditional-header comparison. *)
Variable fresh_check : gmap string string → gmap string string → bool.
(** [net.isIP] of the runtime: 4, 6 or 0. *)
Variable net_isIP : string → Z.

Definition header (c : Context) : gmap string string := req_headers (ctx_req c).

Definition url (c : Context) : string := req_url (ctx_req c).

Definition method (c : Context) : string := req_method (ctx_req c).

Definition socket (c : Context) : Socket := req_socket (ctx_req c).

(** A [TypeError] raised by the runtime. *)
Definition TypeError (message : string) : Error :=
  mkError message Js.Undefined Js.Undefined Js.Undefined Js.Undefined [] false.

(** [get(field)].  [req.headers] is a plain object: [req.headers[field]]
    is the header of that name if there is one, and otherwise whatever the
    object inherits under that name. *)
Definition get (field : string) (c : Context) : Field :=
  let field := Js.toLowerCase field in
  let headers := req_headers (ctx_req c) in
  if bool_decide (field = "referer") || bool_decide (field = "referrer")
  then FieldText
         (Js.str_or (headers !! "referrer") (Js.str_or (headers !! "referer") ""))
  else match headers !! field with
       | Some s => FieldText s
       | None => if Js.object_member field then FieldMember field
                 else FieldText ""
       end.

(** Truthiness of what [get] returns. *)
Definition field_truthy (v : Field) : bool :=
  match v with
  | FieldText s => Js.str_truthy s
  | FieldMember _ => true
  end.

(** [get(field)] where [field] is a literal of the source.  None of the
    literals is the name of a member of [Object.prototype], so the result
    is a string (lemma [get_literal]). *)
Definition get_text (field : string) (c : Context) : string :=
  match get field c with
  | FieldText s => s
  | FieldMember _ => ""
  end.

(** [s.split(/\s*,\s*/, 1)[0]]: the limit keeps the first piece. *)
Definition first_listed (s : string) : string :=
  default "" (take 1 (Js.split_comma_ws s) !! 0%nat).

Definition protocol (c : Context) : string :=
  if encrypted (socket c) then "https"
  else if negb (proxy (ctx_app c)) then "http"
  else
    let proto := get_text "X-Forwarded-Proto" c in
    if Js.str_truthy proto then first_listed proto else "http".

Definition host (c : Context) : string :=
  let proxy := proxy (ctx_app c) in
  let host := if proxy then get_text "X-Forwarded-Host" c else "" in
  let host :=
    if negb (Js.str_truthy host) then
      let host := if 2 <=? httpVersionMajor (ctx_req c)
                  then get_text ":authority" c else host in
      if negb (Js.str_truthy host) then get_text "Host" c else host
    else host in
  if negb (Js.str_truthy host) then "" else first_listed host.

Definition origin (c : Context) : string :=
  protocol c +:+ "://" +:+ host c.

(** [get URL]: the value and the context with the memo slot filled. *)
Definition URL (c : Context) : URLValue * Context :=
  match memoizedURL c with
  | Some v => (v, c)
  | None =>
      let originalUrl := Js.str_or (Some (originalUrl c)) "" in
      let v := match new_URL (origin c +:+ originalUrl) with
               | Some u => ParsedURL u
               | None => EmptyObject
               end in
      (v, with_memoizedURL (Some v) c)
  end.

(** [get hostname]; a bracketed host reads (and memoizes) [URL]. *)
Definition hostname (c : Context) : string * Context :=
  let host := host c in
  match host with
  | EmptyString => ("", c)
  | String "["%char _ =>
      let '(u, c') := URL c in
      (match u with
       | ParsedURL r => Js.str_or (Some (url_hostname r)) ""
       | EmptyObject => ""
       end, c')
  | _ => (default "" (take 1 (Js.split_char ":" host) !! 0%nat), c)
  end.

Definition fresh (c : Context) : bool :=
  let method := method c in
  let s := Response.status c in
  if negb (bool_decide (method = "GET")) && negb (bool_decide (method = "HEAD"))
  then false
  else if ((200 <=? s) && (s <? 300)) || (s =? 304)
  then fresh_check (header c) (Response.header c)
  else false.

Definition stale (c : Context) : bool := negb (fresh c).

(** [get ips].  A value of [get] that is not a string has no [split]
    method, so the call raises. *)
Definition ips (c : Context) : Outcome (list string) :=
  let proxy := proxy (ctx_app c) in
  let val := get (proxyIpHeader (ctx_app c)) c in
  let ips :=
    if proxy && field_truthy val then
      match val with
      | FieldText val => Value (Js.split_comma_ws val)
      | FieldMember _ => Raised (TypeError "val.split is not a function")
      end
    else Value [] in
  match ips with
  | Value ips =>
      Value (if 0 <? maxIpsCount (ctx_app c)
             then Js.slice (- maxIpsCount (ctx_app c)) ips
             else ips)
  | Raised e => Raised e
  end.

(** [get ip]: the value and the context with the [IP] slot filled; when
    [ips] raises, nothing is stored. *)
Definition ip (c : Context) : Outcome (string * Context) :=
  if negb (Js.ostr_truthy (ip_slot c)) then
    match ips c with
    | Value ips =>
        let v := Js.str_or (ips !! 0%nat)
                   (Js.str_or (remoteAddress (socket c)) "") in
        Value (v, with_ip_slot (Some v) c)
    | Raised e => Raised e
    end
  else Value (default "" (ip_slot c), c).

(** [set ip]. *)
Definition set_ip (v : string) (c : Context) : Context :=
  with_ip_slot (Some v) c.

Definition subdomains (c : Context) : list string * Context :=
  let offset := subdomainOffset (ctx_app c) in
  let '(hostname, c') := hostname c in
  if negb (net_isIP hostname =? 0) then ([], c')
  else (Js.slice offset (Js.reverse (Js.split_char "." hostname)), c').

(** [get href]. *)
Definition href (c : Context) : string :=
  if Js.has_http_scheme (originalUrl c) then originalUrl c
  else origin c +:+ originalUrl c.

(** [get secure]. *)
Definition secure (c : Context) : bool :=
  bool_decide (protocol c = "https").

(** [get idempotent]: [!!~methods.indexOf(this.method)]. *)
Definition idempotent (c : Context) : bool :=
  let methods := ["GET"; "HEAD"; "PUT"; "DELETE"; "OPTIONS"; "TRACE"] in
  negb (Z.lnot (Js.indexOf methods (method c)) =? 0).

(** [get type]. *)
Definition type (c : Context) : string :=
  let type := get_text "Content-Type" c in
  if negb (Js.str_truthy type) then ""
  else default "" (Js.split_char ";" type !! 0%nat).

(** [set url], [set method] and [set header]. *)
Definition set_url (val : string) (c : Context) : Context :=
  with_req (set_url val) c.

Definition set_method (val : string) (c : Context) : Context :=
  with_req (λ r, mkReq val (req_url r) (req_headers r) (httpVersionMajor r)
                      (req_socket r)) c.

Definition set_header (val : gmap string string) (c : Context) : Context :=
  with_req (λ r, mkReq (req_method r) (req_url r) val (httpVersionMajor r)
                      (req_socket r)) c.

End Getters.
End Request.

(** ** The query string accessors of [lib/request.js] *)

(** The legacy URL object that [parseurl] returns, as far as the accessors
    read and write it; [u_prefix] stands for the protocol, credentials and
    host parts, which they leave alone. *)
Record Url := mkUrl {
  u_prefix : string;
  u_pathname : option string;
  u_search : option string;
  u_query : option string;
  u_path : option string;
  u_hash : option string
}.

(** A value in a parsed query: a string, or an array for a repeated key. *)
Inductive QValue :=
| QStr (s : string)
| QArr (l : list string).

Module Query.
Section Accessors.

(** [parseurl(req)], a function of [req.url].  The package memoizes the
    parsed object on [req]; the accessors below write only its [search]
    and [path] and then replace [req.url], and read only [search] and
    [query], so the memo is not observable through them. *)
Variable parse : string → Url.
(** [url.format] of the runtime. *)
Variable stringify : Url → string.
(** [querystring.parse] and [querystring.stringify] of the runtime, on
    the own properties of an object. *)
Variable qs_parse : string → gmap string QValue.
Variable qs_stringify : gmap string QValue → string.

(** [get querystring].  The guard [if (!this.req) return ''] concerns the
    bare prototype; a context always has its [req]. *)
Definition querystring (c : Context) : string :=
  Js.str_or (u_query (parse (req_url (ctx_req c)))) "".

(** [url.search = str; url.path = null]. *)
Definition rewrite_search (str : string) (u : Url) : Url :=
  mkUrl (u_prefix u) (u_pathname u) (Some str) (u_query u) None (u_hash u).

(** [set querystring]. *)
Definition set_querystring (str : string) (c : Context) : Context :=
  let url := parse (req_url (ctx_req c)) in
  if bool_decide (u_search url = Some ("?" +:+ str)) then c
  else with_req (set_url (stringify (rewrite_search str url))) c.

(** [set query]. *)
Definition set_query (obj : gmap string QValue) (c : Context) : Context :=
  set_querystring (qs_stringify obj) c.

(** [get search]. *)
Definition search (c : Context) : string :=
  if negb (Js.str_truthy (querystring c)) then ""
  else "?" +:+ querystring c.

(** [set search]. *)
Definition set_search (str : string) (c : Context) : Context :=
  set_querystring str c.

(** The request facade together with its [_querycache] slot; an absent
    slot and an empty object behave alike. *)
Record Cached := mkCached {
  cached_ctx : Context;
  querycache : gmap string (gmap string QValue)
}.

(** What [get query] returns: a parsed query, or the member of
    [Object.prototype] that the cache object inherits under that name. *)
Inductive QueryValue :=
| ParsedQuery (m : gmap string QValue)
| Inherited (name : string).

(** Whether [Object.prototype] has a member of the given name; the cache
    is a plain object, so [c[str]] finds such a member (a function or an
    object, hence truthy) where the cache has no entry of its own. *)
Variable inherited : string → bool.

(** [get query]: [c[str] || (c[str] = qs.parse(str))]. *)
Definition query (s : Cached) : QueryValue * Cached :=
  let str := querystring (cached_ctx s) in
  let c := querycache s in
  match c !! str with
  | Some m => (ParsedQuery m, s)
  | None =>
      if inherited str then (Inherited str, s)
      else
        let m := qs_parse str in
        (ParsedQuery m, mkCached (cached_ctx s) (<[str := m]> c))
  end.

End Accessors.
End Query.

(** ** The context prototype: error recovery *)

Module Ctx.
Section Recovery.

Variable statuses : Statuses.

(** What [onerror] leaves behind: the context, the error object as it was
    normalized and mutated, the events emitted on the application's
    ['error'] channel (the error and the context handed to the listeners)
    and how the call ended. *)
Record Recovery := mkRecovery {
  rec_ctx : Context;
  rec_err : option Error;
  rec_emitted : list (Error * Context);
  rec_completion : Completion
}.

(** [new Error(message)]. *)
Definition new_Error (message : string) : Error :=
  mkError message Js.Undefined Js.Undefined Js.Undefined Js.Undefined [] false.

Definition with_headerSent (b : bool) (e : Error) : Error :=
  mkError (err_message e) (err_status e) (err_statusCode e) (err_code e)
          (err_expose e) (err_headers e) b.

Definition with_err_status (v : Js.value) (e : Error) : Error :=
  mkError (err_message e) v (err_statusCode e) (err_code e)
          (err_expose e) (err_headers e) (err_headerSent e).

(** [statuses[statusCode]] is truthy and [statusCode] is a number. *)
Definition known_status (v : Js.value) : bool :=
  match v with
  | Js.Num n => Js.ostr_truthy (status_message statuses n)
  | _ => false
  end.

(** The status computation of [onerror]: [err.status || err.statusCode],
    then 404 for the ENOENT code, then 500 for what is not a number with a
    truthy table entry. *)
Definition resolve_status (err : Error) : Z :=
  let statusCode := Js.or (err_status err) (err_statusCode err) in
  let statusCode :=
    if bool_decide (err_code err = Js.Str "ENOENT") then Js.Num 404
    else statusCode in
  match statusCode with
  | Js.Num n => if known_status statusCode then n else 500
  | _ => 500
  end.

(** [res.getHeaderNames().forEach(name => res.removeHeader(name))]. *)
Definition unset_all_headers (c : Context) : Context :=
  with_res (set_res_headers ∅) c.

(** The body of [onerror] once the value is known to be an error
    object. *)
Definition recover (err : Error) (c : Context) : Recovery :=
  let headerSent := Response.headerSent c || negb (Response.writable c) in
  let err := if headerSent then with_headerSent true err else err in
  let emitted := [(err, c)] in
  if headerSent then mkRecovery c (Some err) emitted Returned
  else
    let c := unset_all_headers c in
    let c := Response.set_all (err_headers err) c in
    let c := Response.set_type_text c in
    let statusCode := resolve_status err in
    let code := status_message statuses statusCode in
    let msg := if Js.truthy (err_expose err) then Some (err_message err) else code in
    let err := with_err_status (Js.Num statusCode) err in
    let c := Response.set_status statusCode c in
    match msg with
    | Some msg =>
        let c := Response.set_length (Js.byteLength msg) c in
        let c := with_res (res_end (Some (Text msg))) c in
        mkRecovery c (Some err) emitted Returned
    | None =>
        (* [Buffer.byteLength(undefined)] raises *)
        mkRecovery c (Some err) emitted
          (Threw (new_Error "The string argument must be of type string"))
    end.

(** The error object recovery works on: the error itself, or a fresh
    error wrapping a value that is not one. *)
Definition normalize (err : Thrown) : option Error :=
  match err with
  | ThrownNullish => None
  | ThrownNonError json => Some (new_Error ("non-error thrown: " +:+ json))
  | ThrownError e => Some e
  end.

Definition onerror (err : Thrown) (c : Context) : Recovery :=
  match normalize err with
  | None => mkRecovery c None [] Returned
  | Some err => recover err c
  end.

End Recovery.
End Ctx.

(** ** [lib/application.js] *)

Module App.
Section Dispatch.

Variable statuses : Statuses.

(** [a || b] on an optional number: absent and [0] are falsy. *)
Definition num_or (a : option Z) (b : Z) : Z :=
  match a with
  | Some n => if n =? 0 then b else n
  | None => b
  end.

(** The constructor, as far as the settings go; [node_env] is
    [process.env.NODE_ENV]. *)
Definition constructor (node_env : option string) (options : Options) : Application :=
  mkApp (default false (opt_proxy options))
        (num_or (opt_subdomainOffset options) 2)
        (Js.str_or (opt_proxyIpHeader options) "X-Forwarded-For")
        (num_or (opt_maxIpsCount options) 0)
        (Js.str_or (opt_env options) (Js.str_or node_env "development"))
        false.

(** [createContext(req, res)]. *)
Definition createContext (app : Application) (req : IncomingMessage)
    (res : ServerResponse) : Context :=
  mkContext app req res (req_url req) Js.Undefined None None BodyUndefined false.

(** A [TypeError] raised by the runtime. *)
Definition TypeError (message : string) : Error := Ctx.new_Error message.

(** [respond(ctx)]. *)
Definition respond (ctx : Context) : Context * Completion :=
  if bool_decide (ctx_respond ctx = Js.Bool false) then (ctx, Returned)
  else if negb (Response.writable ctx) then (ctx, Returned)
  else
    let body := body_slot ctx in
    let code := Response.status ctx in
    if status_empty statuses code then
      let ctx := Response.set_body_null ctx in
      (with_res (res_end None) ctx, Returned)
    else if bool_decide (Request.method ctx = "HEAD") then
      let ctx :=
        if negb (headersSent (ctx_res ctx)) && negb (Response.has "Content-Length" ctx)
        then match Response.length ctx with
             | Some length => Response.set_length length ctx
             | None => ctx
             end
        else ctx in
      (with_res (res_end None) ctx, Returned)
    else
      match body with
      | BodyNull | BodyUndefined =>
          if explicitNullBody ctx then
            let ctx := Response.remove "Content-Type" ctx in
            let ctx := Response.remove "Transfer-Encoding" ctx in
            let ctx := Response.set_length 0 ctx in
            (with_res (res_end None) ctx, Returned)
          else
            let body :=
              if 2 <=? httpVersionMajor (ctx_req ctx) then Js.String_of code
              else Js.str_or (Response.message statuses ctx) (Js.String_of code) in
            let ctx :=
              if negb (headersSent (ctx_res ctx))
              then Response.set_length (Js.byteLength body) (Response.set_type_text ctx)
              else ctx in
            (with_res (res_end (Some (Text body))) ctx, Returned)
      | BodyBuffer b => (with_res (res_end (Some (Bytes b))) ctx, Returned)
      | BodyString s => (with_res (res_end (Some (Text s))) ctx, Returned)
      | BodyStream n => (with_res (res_pipe (FromStream n)) ctx, Returned)
      | BodyBlob n => (with_res (res_pipe (FromBlob n)) ctx, Returned)
      | BodyReadableStream n => (with_res (res_pipe (FromReadableStream n)) ctx, Returned)
      | BodyResponse n => (with_res (res_pipe (FromResponse n)) ctx, Returned)
      | BodyObject (JsonThrows m) => (ctx, Threw (TypeError m))
      | BodyObject (JsonText s) =>
          let ctx := if negb (headersSent (ctx_res ctx))
                     then Response.set_length (Js.byteLength s) ctx else ctx in
          (with_res (res_end (Some (Text s))) ctx, Returned)
      | BodyObject JsonUndefined =>
          if negb (headersSent (ctx_res ctx))
          then (ctx, Threw (TypeError "The string argument must be of type string"))
          else (with_res (res_end None) ctx, Returned)
      end.

(** How the promise of the composed middleware settles, with the context
    as the chain left it. *)
Inductive Settled :=
| Fulfilled (ctx : Context)
| Rejected (reason : Thrown) (ctx : Context).

(** What [handleRequest] leaves behind: the context, the events emitted on
    the ['error'] channel, and how the last step run ended. *)
Record Handled := mkHandled {
  h_ctx : Context;
  h_emitted : list (Error * Context);
  h_completion : Completion
}.

Definition of_recovery (r : Ctx.Recovery) : Handled :=
  mkHandled (Ctx.rec_ctx r) (Ctx.rec_emitted r) (Ctx.rec_completion r).

(** The context that [handleRequest] hands to the middleware chain:
    [res.statusCode = 404] and the completion observer attached. *)
Definition prepare (ctx : Context) : Context :=
  let ctx := with_res (set_statusCode 404) ctx in
  with_res res_observe ctx.

(** [handleRequest(ctx, fnMiddleware)]:
    [fnMiddleware(ctx).then(handleResponse).catch(onerror)]. *)
Definition handleRequest (ctx : Context) (fnMiddleware : Context → Settled) : Handled :=
  match fnMiddleware (prepare ctx) with
  | Fulfilled ctx =>
      match respond ctx with
      | (ctx, Returned) => mkHandled ctx [] Returned
      | (ctx, Threw e) => of_recovery (Ctx.onerror statuses (ThrownError e) ctx)
      end
  | Rejected reason ctx => of_recovery (Ctx.onerror statuses reason ctx)
  end.

(** The request listener returned by [callback()]; the optional
    async-local storage wrapper runs the same [handleRequest]. *)
Definition callback (app : Application) (fn : Context → Settled)
    (req : IncomingMessage) (res : ServerResponse) : Handled :=
  handleRequest (createContext app req res) fn.

End Dispatch.

Section Logging.

(** What [%j] prints for the value handed over when it is [null] or
    [undefined]. *)
Variable nullish_rendering : string.

(** How the default listener ends: it raises, stays quiet, or prints a
    text on the error console. *)
Inductive Logged :=
| Raises (e : Error)
| Quiet
| Prints (text : string).

(** [onerror(err)], the default listener of the application's ['error']
    channel; [trace] is the text [err.stack || err.toString()]. *)
Definition onerror (app : Application) (err : Thrown) (trace : string) : Logged :=
  match err with
  | ThrownNullish => Raises (TypeError ("non-error thrown: " +:+ nullish_rendering))
  | ThrownNonError json => Raises (TypeError ("non-error thrown: " +:+ json))
  | ThrownError err =>
      if bool_decide (err_status err = Js.Num 404) || Js.truthy (err_expose err)
      then Quiet
      else if silent app then Quiet
      else
        let msg := trace in
        Prints (Js.LF +:+ Js.indent_lines msg +:+ Js.LF)
  end.

End Logging.
End App.

(** ** Reference formulations

    Definitions that follow the words of the specification; the theorems
    compare them with the code above. *)

Module Reference.

(** A string without its trailing white space. *)
Fixpoint rtrim (s : string) : string :=
  match s with
  | EmptyString => EmptyString
  | String c s' =>
      match rtrim s' with
      | EmptyString => if Js.is_space c then EmptyString else String c EmptyString
      | r => String c r
      end
  end.

(** Comma-separated fields with the white space next to a comma removed:
    every field but the last loses its trailing white space and every
    field but the first its leading white space. *)
Fixpoint trim_fields (first : bool) (fields : list string) : list string :=
  match fields with
  | [] => []
  | f :: fs =>
      let f := if first then f else Js.skip_ws f in
      match fs with
      | [] => [f]
      | _ => rtrim f :: trim_fields false fs
      end
  end.

(** A header value split on commas, nearest client first. *)
Definition comma_list (val : string) : list string :=
  trim_fields true (Js.split_char "," val).

(** At most [n] trailing entries when [n] is positive. *)
Definition keep_last {A} (n : Z) (l : list A) : list A :=
  if 0 <? n then drop (length l - Z.to_nat n) l else l.

(** The status the specification's sentence reads as: the explicit status
    of the error if present, 404 for the ENOENT code, otherwise 500; and
    500 for whatever is not in the status table. *)
Definition claimed_status (statuses : Statuses) (e : Error) : Z :=
  let explicit := Js.or (err_status e) (err_statusCode e) in
  let chosen :=
    if Js.truthy explicit then explicit
    else if bool_decide (err_code e = Js.Str "ENOENT") then Js.Num 404
    else Js.Num 500 in
  if Ctx.known_status statuses chosen
  then match chosen with Js.Num n => n | _ => 500 end
  else 500.

(** The host name split on dots, reversed, without its leading [n]
    components. *)
Definition claimed_subdomains (n : Z) (hostname : string) : list string :=
  drop (Z.to_nat n) (rev (Js.split_char "." hostname)).

(** The code units that the canonical encoding of a key or a value leaves
    as they are: letters, digits and ten marks. *)
Definition unreserved (c : ascii) : bool :=
  let n := N_of_ascii c in
  ((48 <=? n) && (n <=? 57) || (65 <=? n) && (n <=? 90)
   || (97 <=? n) && (n <=? 122))%N
  || match c with
     | "-" | "_" | "." | "!" | "~" | "*" | "'" | "(" | ")" => true
     | _ => false
     end%char.


(** The pieces of a scan that starts with [cur] already read. *)
Definition glue (cur : string) (l : list string) : list string :=
  match l with
  | [] => [cur]
  | p :: ps => (cur +:+ p) :: ps
  end.

End Reference.

(** ** Instances of the runtime services, for evaluating the code *)

Module Sample.

(** An excerpt of the table of the [statuses] package. *)
Definition codes : list (Z * string) :=
  [ (200, "OK"); (204, "No Content"); (205, "Reset Content");
    (304, "Not Modified"); (400, "Bad Request"); (403, "Forbidden");
    (404, "Not Found"); (418, "I'm a teapot");
    (500, "Internal Server Error") ].

Definition statuses : Statuses :=
  mkStatuses
    (λ n, (list_to_map codes : gmap Z string) !! n)
    (λ n, (n =? 204) || (n =? 205) || (n =? 304)).

Definition is_digit (c : ascii) : bool :=
  let n := N_of_ascii c in ((48 <=? n) && (n <=? 57))%N.

Fixpoint decimal (s : string) (acc : N) : option N :=
  match s with
  | EmptyString => Some acc
  | String c s' =>
      if is_digit c then decimal s' (acc * 10 + (N_of_ascii c - 48))%N
      else None
  end.

Definition is_octet (s : string) : bool :=
  match s with
  | EmptyString => false
  | String c rest =>
      (String.length s <=? 3)%nat
      && (negb (bool_decide (c = "0"%char)) || bool_decide (rest = ""))
      && match decimal s 0 with Some n => (n <=? 255)%N | None => false end
  end.

(** [net.isIP] on dotted-quad literals.  Literals of the other address
    family contain a colon, which a host name read by [get hostname]
    never does outside brackets. *)
Definition isIP (s : string) : Z :=
  match Js.split_char "." s with
  | [a; b; c; d] =>
      if is_octet a && is_octet b && is_octet c && is_octet d then 4 else 0
  | _ => 0
  end.

(** The text up to and including the first closing bracket. *)
Fixpoint through_bracket (s : string) : string :=
  match s with
  | EmptyString => EmptyString
  | String c s' =>
      if bool_decide (c = "]"%char) then String c EmptyString
      else String c (through_bracket s')
  end.

(** A stand-in for the URL constructor: it accepts an [http] or [https]
    scheme followed by two slashes and a host that is not empty, and
    reports the host without its port as host name. *)
Definition new_URL (s : string) : option URLRecord :=
  match Js.split_char "/" s with
  | scheme :: "" :: authority :: _ =>
      if (bool_decide (scheme = "http:") || bool_decide (scheme = "https:"))
         && Js.str_truthy authority
      then Some (mkURL s
             match authority with
             | String "["%char _ => through_bracket authority
             | _ => default "" (Js.split_char ":" authority !! 0%nat)
             end)
      else None
  | _ => None
  end.

(** A stand-in for the [fresh] package: the entity tags agree. *)
Definition fresh_check (reqh resh : gmap string string) : bool :=
  match reqh !! "if-none-match", resh !! "etag" with
  | Some a, Some b => bool_decide (a = b)
  | _, _ => false
  end.

(** [parseurl] on an origin-form target: path, and query after the first
    question mark. *)
Fixpoint cut_query (s : string) : string * option string :=
  match s with
  | EmptyString => (EmptyString, None)
  | String c s' =>
      if bool_decide (c = "?"%char) then (EmptyString, Some s')
      else let '(p, q) := cut_query s' in (String c p, q)
  end.

Definition parse (s : string) : Url :=
  let '(p, q) := cut_query s in
  mkUrl "" (Some p) (option_map (λ q, "?" +:+ q) q) q (Some s) None.

(** [url.format] on such an object. *)
Definition stringify (u : Url) : string :=
  let search := default "" (u_search u) in
  let search :=
    match search with
    | EmptyString => search
    | String "?"%char _ => search
    | _ => "?" +:+ search
    end in
  u_prefix u +:+ default "" (u_pathname u) +:+ search +:+ default "" (u_hash u).

(** Percent escapes: a byte as two upper-case hexadecimal digits, and a
    code unit as the bytes of its UTF-8 form. *)
Definition hex_digit (n : N) : ascii :=
  ascii_of_N (if (n <? 10)%N then n + 48 else n + 55)%N.

Definition hex_value (c : ascii) : option N :=
  let n := N_of_ascii c in
  if ((48 <=? n) && (n <=? 57))%N then Some (n - 48)%N
  else if ((65 <=? n) && (n <=? 70))%N then Some (n - 55)%N
  else if ((97 <=? n) && (n <=? 102))%N then Some (n - 87)%N
  else None.

Definition hex_byte (a b : ascii) : option N :=
  match hex_value a, hex_value b with
  | Some x, Some y => Some (16 * x + y)%N
  | _, _ => None
  end.

Definition escape_byte (n : N) : string :=
  String "%" (String (hex_digit (n / 16)) (String (hex_digit (n mod 16)) "")).

Definition escape_unit (c : ascii) : string :=
  let n := N_of_ascii c in
  if Reference.unreserved c then String c ""
  else if (n <? 128)%N then escape_byte n
  else escape_byte (192 + n / 64) +:+ escape_byte (128 + n mod 64).

(** A stand-in for [querystring.escape]. *)
Fixpoint escape (s : string) : string :=
  match s with
  | EmptyString => EmptyString
  | String c s' => escape_unit c +:+ escape s'
  end.

(** A stand-in for [querystring.unescape], with a plus sign read as a
    space; an escape that is not well formed is kept as it is. *)
Fixpoint unescape (s : string) : string :=
  match s with
  | EmptyString => EmptyString
  | String c s1 =>
      let keep :=
        String (if bool_decide (c = "+"%char) then " "%char else c) (unescape s1) in
      if bool_decide (c = "%"%char) then
        match s1 with
        | String a (String b s2) =>
            match hex_byte a b with
            | Some n =>
                if (n <? 128)%N then String (ascii_of_N n) (unescape s2)
                else
                  match s2 with
                  | String p (String a' (String b' s3)) =>
                      match hex_byte a' b' with
                      | Some m =>
                          if bool_decide (p = "%"%char)
                             && ((192 <=? n) && (n <? 196)
                                 && (128 <=? m) && (m <? 192))%N
                          then String (ascii_of_N ((n - 192) * 64 + (m - 128)))
                                 (unescape s3)
                          else keep
                      | None => keep
                      end
                  | _ => keep
                  end
            | None => keep
            end
        | _ => keep
        end
      else keep
  end.

(** A stand-in for [querystring] on query strings in which no key is
    repeated. *)
Definition qs_pair (kv : string * QValue) : list string :=
  match kv.2 with
  | QStr v => [escape kv.1 +:+ "=" +:+ escape v]
  | QArr vs => (λ v, escape kv.1 +:+ "=" +:+ escape v) <$> vs
  end.

Fixpoint join (sep : string) (l : list string) : string :=
  match l with
  | [] => ""
  | [x] => x
  | x :: xs => x +:+ sep +:+ join sep xs
  end.

Definition qs_stringify (obj : gmap string QValue) : string :=
  join "&" (map_to_list obj ≫= qs_pair).

Definition qs_field (f : string) : option (string * QValue) :=
  match f with
  | EmptyString => None
  | _ =>
      match Js.split_char "=" f with
      | k :: v :: vs => Some (unescape k, QStr (unescape (join "=" (v :: vs))))
      | _ => Some (unescape f, QStr "")
      end
  end.

Definition qs_parse (s : string) : gmap string QValue :=
  list_to_map (omap qs_field (Js.split_char "&" s)).

(** A plain connection and request from a local client. *)
Definition sock : Socket := mkSocket false (Some "10.0.0.9") true.

Definition request (method target : string) (hs : list (string * string)) : IncomingMessage :=
  mkReq method target (list_to_map hs) 1 sock.

Definition response : ServerResponse :=
  mkRes 200 ∅ false false [] None 0.

Definition settings (trust : bool) : Application :=
  mkApp trust 2 "X-Forwarded-For" 0 "development" false.

(** Requests used to evaluate the code. *)
Definition trusted_ctx : Context :=
  App.createContext (settings true)
    (request "GET" "/" [("x-forwarded-for", "1.2.3.4, 5.6.7.8")]) response.

Definition untrusted_ctx : Context :=
  App.createContext (settings false)
    (request "GET" "/" [("x-forwarded-for", "1.2.3.4, 5.6.7.8")]) response.

Definition plain_ctx : Context :=
  App.createContext (settings false) (request "GET" "/" []) response.

Definition conditional_get : Context :=
  with_res (set_res_headers {[ "etag" := "abc" ]})
    (App.createContext (settings false)
       (request "GET" "/" [("if-none-match", "abc")]) response).

Definition default_app : Application :=
  App.constructor None (mkOptions None None None None None).

Definition nested_host : Context :=
  App.createContext default_app
    (request "GET" "/" [("host", "a.b.example.com:3000")]) response.

Definition literal_host : Context :=
  App.createContext default_app
    (request "GET" "/" [("host", "127.0.0.1:3000")]) response.

Definition query_ctx : Context :=
  App.createContext (settings false) (request "GET" "/items?sort=desc" []) response.

Definition query_obj : gmap string string :=
  {[ "page" := "2"; "sort" := "asc" ]}.

(** Errors: a user error that may be shown, and a file error that also
    carries a status. *)
Definition teapot : Error :=
  mkError "teapot" (Js.Num 418) Js.Undefined Js.Undefined (Js.Bool true) [] false.

Definition missing_file : Error :=
  mkError "no such file" (Js.Num 403) Js.Undefined (Js.Str "ENOENT")
          Js.Undefined [] false.


(** A chain that touches nothing. *)
Definition silent_chain (ctx : Context) : App.Settled := App.Fulfilled ctx.

(** A 204 response for which a handler staged a body. *)
Definition no_content_ctx : Context :=
  with_body_slot (BodyString "hello")
    (with_res (λ r, mkRes 204 {[ "content-length" := "5"; "content-type" := "text/plain" ]}
                      false false [] None 1)
       plain_ctx).

(** A HEAD request with a staged body, before and after the head was
    flushed. *)
Definition head_ctx : Context :=
  with_body_slot (BodyString "hello")
    (App.createContext (settings false) (request "HEAD" "/" []) response).

Definition head_flushed_ctx : Context :=
  with_res (λ r, mkRes 200 ∅ true false [] None 1) head_ctx.

End Sample.

(** ** Formulations used to state further properties *)

Module Shape.

(** Whether a code unit occurs in a string. *)
Fixpoint contains (c : ascii) (s : string) : bool :=
  match s with
  | EmptyString => false
  | String d s' => bool_decide (d = c) || contains c s'
  end.

(** How often a code unit occurs in a string. *)
Fixpoint count (c : ascii) (s : string) : nat :=
  match s with
  | EmptyString => 0%nat
  | String d s' => ((if bool_decide (d = c) then 1 else 0) + count c s')%nat
  end.

(** Headers set one after the other, names in lower case, on top of [h]. *)
Definition staged (hs : list (string * string)) (h : gmap string string)
    : gmap string string :=
  foldl (λ h kv, <[Js.toLowerCase kv.1 := kv.2]> h) h hs.

(** Every entry of a query cache is what the parser makes of its key. *)
Definition coherent (qs_parse : string → gmap string QValue)
    (cache : gmap string (gmap string QValue)) : Prop :=
  ∀ k m, cache !! k = Some m → m = qs_parse k.

(** The lines of a text, each behind two spaces. *)
Definition indented (s : string) : string :=
  Sample.join Js.LF ((λ l, "  " +:+ l) <$> Js.split_char "010" s).

(** Whether the finalizer can turn the staged body into a payload: a
    structured body needs a JSON text, unless [JSON.stringify] gave
    [undefined] and the head is out already. *)
Definition serializable (c : Context) : bool :=
  match body_slot c with
  | BodyObject (JsonThrows _) => false
  | BodyObject JsonUndefined => headersSent (ctx_res c)
  | _ => true
  end.

(** The host name made of the given labels. *)
Definition dotted (labels : list string) : string := Sample.join "." labels.

(** A text that ends where a separator begins: it is empty or starts with
    the separator. *)
Definition cut_at (sep : ascii) (rest : string) : Prop :=
  rest = "" ∨ ∃ r, rest = String sep r.

(** The context error recovery leaves behind when it answers with the body
    [msg]: the resolved status, the headers of the error under a plain-text
    content type and the length of the body, and the body sent. *)
Definition recovered (statuses : Statuses) (e : Error) (msg : string)
    (c : Context) : Context :=
  with_res
    (λ r, mkRes (Ctx.resolve_status statuses e)
            (<["content-length" := Js.String_of (Js.byteLength msg)]>
               (<["content-type" := "text/plain; charset=utf-8"]>
                  (staged (err_headers e) ∅)))
            true true (res_sent r ++ [Text msg]) (res_piped r) (res_observers r))
    c.

End Shape.

(** ** Further requests and errors for evaluating the code *)

Module Cases.

(** Options that ask for a subdomain offset of zero. *)
Definition zero_offset : Options := mkOptions None (Some 0) None None None.

(** A request through a proxy that reports a list of protocols. *)
Definition proxied_https : Context :=
  App.createContext (Sample.settings true)
    (Sample.request "GET" "/" [("x-forwarded-proto", "https, http");
                               ("host", "internal:8080")])
    Sample.response.

(** A direct request to a site, and the headers a client may forge. *)
Definition direct : Context :=
  App.createContext (Sample.settings false)
    (Sample.request "GET" "/" [("host", "site.example:3000")]) Sample.response.

Definition forged : gmap string string :=
  <["x-forwarded-host" := "evil.example"]>
    (<["x-forwarded-proto" := "https"]> (req_headers (ctx_req direct))).

(** A request in absolute form. *)
Definition absolute : Context :=
  App.createContext (Sample.settings false)
    (Sample.request "GET" "HTTP://example.com/x?y=1" [("host", "example.com")])
    Sample.response.

(** A request whose query string is cached for the first time, and the
    one name the sample prototype knows. *)
Definition uncached : Query.Cached := Query.mkCached Sample.query_ctx ∅.

Definition inherited (name : string) : bool := bool_decide (name = "constructor").

(** A file error without a status of its own. *)
Definition vanished : Error :=
  mkError "no such file" Js.Undefined Js.Undefined (Js.Str "ENOENT")
          Js.Undefined [] false.

(** The text of a stack trace of two lines. *)
Definition trace : string := "Error: boom" +:+ Js.LF +:+ "    at handler".

(** A response with headers staged by earlier handlers. *)
Definition staged_ctx : Context :=
  with_res (set_res_headers {[ "x-request-id" := "7";
                               "content-type" := "application/json" ]})
    Sample.plain_ctx.

(** A chain that stages a body which cannot be serialized. *)
Definition circular_chain (ctx : Context) : App.Settled :=
  App.Fulfilled (with_body_slot (BodyObject (JsonThrows "circular structure")) ctx).

(** A context as the dispatcher hands it to a chain that sets nothing. *)
Definition untouched : Context := App.prepare Sample.plain_ctx.

(** A context whose handler took over the response. *)
Definition bypassed : Context :=
  mkContext (ctx_app Sample.head_ctx) (ctx_req Sample.head_ctx)
            (ctx_res Sample.head_ctx) (originalUrl Sample.head_ctx)
            (Js.Bool false) None None (BodyString "hello") false.

(** A form post with a parameter on its content type. *)
Definition posted : Context :=
  App.createContext (Sample.settings false)
    (Sample.request "POST" "/" [("content-type", "text/plain; charset=utf-8")])
    Sample.response.

(** A handler staged a structured body whose JSON text is [[1,2,3]]. *)
Definition listing : Context :=
  with_body_slot (BodyObject (JsonText "[1,2,3]")) Sample.plain_ctx.

(** A request behind a trusted proxy on a socket that reports no address,
    and the headers a handler assigns afterwards. *)
Definition unaddressed : Context :=
  App.createContext (Sample.settings true)
    (mkReq "GET" "/" ∅ 1 (mkSocket false None true)) Sample.response.

Definition late_headers : gmap string string :=
  {[ "x-forwarded-for" := "1.2.3.4" ]}.

(** An application that reads the client addresses from a header named
    [constructor], and a request to it without such a header. *)
Definition member_header : Context :=
  App.createContext (mkApp true 2 "constructor" 0 "development" false)
    (Sample.request "GET" "/" []) Sample.response.

(** A 204 response whose head, with the length of a staged text, is on the
    wire already. *)
Definition flushed_no_content : Context :=
  with_body_slot (BodyString "hello")
    (with_res (λ r, mkRes 204 {[ "content-length" := "5";
                                 "content-type" := "text/plain" ]}
                      true false [] None 1)
       Sample.plain_ctx).


End Cases.

(** * Properties *)

Import Reference.

(** ** Strings and arrays *)

Lemma app_cons c s t : String c s +:+ t = String c (s +:+ t).
Proof. reflexivity. Qed.

Lemma app_empty_r s : s +:+ "" = s.
Proof. induction s; [done|]. by rewrite app_cons, IHs. Qed.

Lemma app_snoc cur c p : (cur +:+ String c "") +:+ p = cur +:+ String c p.
Proof. induction cur; [done|]. by rewrite !app_cons, IHcur. Qed.

Lemma str_or_some (s : string) : Js.str_or (Some s) "" = s.
Proof.
  unfold Js.str_or, Js.str_truthy.
  by destruct (decide (s = "")) as [->|]; [|rewrite bool_decide_eq_false_2].
Qed.

Lemma skip_ws_length s : (String.length (Js.skip_ws s) <= String.length s)%nat.
Proof.
  induction s as [|c s IH]; simpl; [lia|].
  destruct (Js.is_space c); simpl; lia.
Qed.

(** A separator match consumes at least its comma, so the scan advances. *)
Lemma match_sep_length s r :
  Js.match_sep s = Some r → (String.length r < String.length s)%nat.
Proof.
  unfold Js.match_sep. intros H.
  destruct (Js.skip_ws s) as [|c t] eqn:E; [done|].
  destruct (decide (c = ","%char)) as [->|]; last first.
  { by destruct c as [[][][][][][][][]]. }
  inversion H; subst.
  pose proof (skip_ws_length s). pose proof (skip_ws_length t).
  rewrite E in *. simpl in *. lia.
Qed.

Lemma comma_not_space c : Js.is_space c = true → c ≠ ","%char.
Proof. by intros H ->. Qed.

Lemma split_char_cons_ne sep c s :
  c ≠ sep →
  ∃ g gs, Js.split_char sep s = g :: gs
          ∧ Js.split_char sep (String c s) = String c g :: gs.
Proof.
  intros Hne. simpl. rewrite bool_decide_eq_false_2 by done.
  destruct s as [|d s]; simpl.
  - by eexists _, _.
  - destruct (bool_decide (d = sep)); [by eexists _, _|].
    destruct (Js.split_char sep s); by eexists _, _.
Qed.

Lemma split_char_nonempty sep s : Js.split_char sep s ≠ [].
Proof.
  destruct s as [|c s]; simpl; [done|].
  destruct (bool_decide (c = sep)); [done|].
  by destruct (Js.split_char sep s).
Qed.

Lemma rtrim_cons_empty c s :
  rtrim (String c s) = "" ↔ Js.is_space c = true ∧ rtrim s = "".
Proof.
  simpl. destruct (rtrim s); destruct (Js.is_space c);
    split; (done || by intros []).
Qed.

Lemma rtrim_cons_keep c s :
  ¬ (Js.is_space c = true ∧ rtrim s = "") →
  rtrim (String c s) = String c (rtrim s).
Proof.
  simpl. intros H. destruct (rtrim s); destruct (Js.is_space c); try done.
  by destruct H.
Qed.

Lemma match_sep_comma t : Js.match_sep (String "," t) = Some (Js.skip_ws t).
Proof. reflexivity. Qed.

Lemma match_sep_space c t :
  Js.is_space c = true → Js.match_sep (String c t) = Js.match_sep t.
Proof. intros H. unfold Js.match_sep. simpl. by rewrite H. Qed.

Lemma match_sep_other c t :
  Js.is_space c = false → c ≠ ","%char → Js.match_sep (String c t) = None.
Proof.
  intros H Hc. unfold Js.match_sep. simpl. rewrite H.
  destruct (decide (c = ","%char)) as [->|_]; [done|].
  by destruct c as [[][][][][][][][]].
Qed.

(** Where the separator matches, the first comma field is blank and the
    scan resumes after the white space that follows the comma. *)
Lemma match_sep_fields s r :
  Js.match_sep s = Some r →
  ∃ w s', Js.split_char "," s = w :: Js.split_char "," s'
          ∧ rtrim w = "" ∧ r = Js.skip_ws s'.
Proof.
  induction s as [|c t IH]; [done|]. intros H.
  destruct (decide (c = ","%char)) as [->|Hc].
  { rewrite match_sep_comma in H. inversion H; subst. by exists "", t. }
  destruct (Js.is_space c) eqn:Hs.
  - rewrite match_sep_space in H by done.
    destruct (IH H) as (w & s' & Hw & Hr & ->).
    destruct (split_char_cons_ne ","%char c t Hc) as (g & gs & Hg & ->).
    rewrite Hw in Hg. inversion Hg; subst.
    exists (String c g), s'. split_and!; [done| |done].
    by apply rtrim_cons_empty.
  - by rewrite match_sep_other in H.
Qed.

(** A blank field followed by a comma is where the separator matches. *)
Lemma blank_field_matches t g0 g1 gs :
  Js.split_char "," t = g0 :: g1 :: gs → rtrim g0 = "" →
  is_Some (Js.match_sep t).
Proof.
  revert g0. induction t as [|d t IH]; intros g0 Hsp Hr; [done|].
  destruct (decide (d = ","%char)) as [->|Hd]; [by rewrite match_sep_comma|].
  destruct (split_char_cons_ne ","%char d t Hd) as (g & gs' & Hg & Hg').
  rewrite Hg' in Hsp. inversion Hsp; subst.
  apply rtrim_cons_empty in Hr as [Hsd Hr].
  rewrite match_sep_space by done. eauto.
Qed.

Lemma trim_fields_skip_ws s :
  trim_fields true (Js.split_char "," (Js.skip_ws s))
  = trim_fields false (Js.split_char "," s).
Proof.
  induction s as [|c t IH]; [done|].
  cbn [Js.skip_ws]. destruct (Js.is_space c) eqn:Hs.
  - rewrite IH.
    destruct (split_char_cons_ne ","%char c t (comma_not_space _ Hs))
      as (g & gs & -> & ->).
    cbn [trim_fields Js.skip_ws]. by rewrite Hs.
  - destruct (decide (c = ","%char)) as [->|Hc].
    { cbn. by destruct (Js.split_char "," t). }
    destruct (split_char_cons_ne ","%char c t Hc) as (g & gs & _ & ->).
    cbn [trim_fields Js.skip_ws]. by rewrite Hs.
Qed.

(** The split loop, from any scan position and with enough fuel, yields the
    trimmed comma fields of what is left, the first one glued to the piece
    read so far. *)
Lemma split_loop_fields n : ∀ s cur fuel,
  (String.length s ≤ n)%nat → (String.length s < fuel)%nat →
  Js.split_loop fuel s cur = glue cur (trim_fields true (Js.split_char "," s)).
Proof.
  induction n as [n IH] using lt_wf_ind. intros s cur fuel Hn Hf.
  destruct fuel as [|fuel]; [lia|].
  destruct s as [|c t]; [by cbn; rewrite app_empty_r|].
  cbn [Js.split_loop]. destruct (Js.match_sep (String c t)) as [r|] eqn:Hm.
  - pose proof (match_sep_length _ _ Hm) as Hlen.
    destruct (match_sep_fields _ _ Hm) as (w & s' & -> & Hw & ->).
    simpl in Hn, Hf, Hlen.
    rewrite (IH (String.length (Js.skip_ws s'))) by lia.
    rewrite trim_fields_skip_ws. cbn [trim_fields glue].
    destruct (Js.split_char "," s') as [|g gs] eqn:Hg;
      [by apply split_char_nonempty in Hg|].
    rewrite Hw. cbn [glue]. rewrite app_empty_r. f_equal.
    cbn [trim_fields glue]. by destruct gs.
  - assert (c ≠ ","%char) as Hc by (intros ->; by rewrite match_sep_comma in Hm).
    simpl in Hn, Hf.
    rewrite (IH (String.length t)) by lia.
    destruct (split_char_cons_ne ","%char c t Hc) as (g & gs & Hg & ->).
    rewrite Hg. cbn [trim_fields].
    destruct gs as [|g1 gs]; cbn [glue]; [by rewrite app_snoc|].
    rewrite app_snoc. f_equal. f_equal. symmetry. apply rtrim_cons_keep.
    intros [Hs Hr].
    destruct (blank_field_matches _ _ _ _ Hg Hr) as [r Hr'].
    rewrite match_sep_space in Hm by done. congruence.
Qed.

(** [s.split(/\s*,\s*/)] is the list of comma fields of [s], in order,
    without the white space next to the commas. *)
Lemma split_comma_ws_fields s : Js.split_comma_ws s = comma_list s.
Proof.
  unfold Js.split_comma_ws, comma_list.
  rewrite (split_loop_fields (String.length s)) by lia.
  destruct (trim_fields true (Js.split_char "," s)) eqn:E; [|done].
  destruct (Js.split_char "," s) as [|g [|g1 gs]] eqn:Hg; try done.
  by apply split_char_nonempty in Hg.
Qed.

Example split_two_hops :
  Js.split_comma_ws "1.2.3.4, 5.6.7.8" = ["1.2.3.4"; "5.6.7.8"].
Proof. reflexivity. Qed.

Example split_keeps_outer_space :
  Js.split_comma_ws "  a , b,c  ,, d " = ["  a"; "b"; "c"; ""; "d "].
Proof. reflexivity. Qed.

Lemma slice_keep_last {A} (n : Z) (l : list A) :
  (if 0 <? n then Js.slice (- n) l else l) = keep_last n l.
Proof.
  unfold keep_last, Js.slice. destruct (0 <? n) eqn:Hn; [|done].
  apply Z.ltb_lt in Hn.
  destruct (- n <? 0) eqn:Hm; [|apply Z.ltb_ge in Hm; lia].
  f_equal. lia.
Qed.

Lemma keep_last_length {A} (n : Z) (l : list A) :
  0 < n → Z.of_nat (length (keep_last n l)) ≤ n.
Proof.
  intros Hn. unfold keep_last.
  destruct (0 <? n) eqn:E; [|apply Z.ltb_ge in E; lia].
  rewrite length_drop. lia.
Qed.

Lemma keep_last_suffix {A} (n : Z) (l : list A) : keep_last n l `suffix_of` l.
Proof. unfold keep_last. destruct (0 <? n); [apply suffix_drop|done]. Qed.

Lemma slice_drop {A} (n : Z) (l : list A) :
  0 ≤ n → Js.slice n l = drop (Z.to_nat n) l.
Proof.
  intros Hn. unfold Js.slice.
  destruct (n <? 0) eqn:E; [apply Z.ltb_lt in E; lia|].
  destruct (decide (n ≤ Z.of_nat (length l))).
  - by rewrite Z.min_l.
  - rewrite Z.min_r by lia. rewrite Nat2Z.id.
    rewrite !drop_ge; [done|lia|lia].
Qed.

Import Shape.

(** ** Pieces of a split *)

Lemma contains_split_head sep s g gs :
  Js.split_char sep s = g :: gs → contains sep g = false.
Proof.
  revert g gs. induction s as [|c s IH]; intros g gs; simpl.
  - by intros [= <- <-].
  - case_bool_decide as Hc; [by intros [= <- <-]|].
    destruct (Js.split_char sep s) as [|g' gs'] eqn:E.
    + intros [= <- <-]. simpl. by rewrite bool_decide_eq_false_2.
    + intros [= <- <-]. simpl. rewrite bool_decide_eq_false_2 by done.
      by eapply IH.
Qed.

Lemma contains_split sep s :
  Forall (λ g, contains sep g = false) (Js.split_char sep s).
Proof.
  induction s as [|c s IH]; simpl; [by repeat constructor|].
  case_bool_decide as Hc; [by constructor|].
  destruct (Js.split_char sep s) as [|g gs] eqn:E.
  - repeat constructor. simpl. by rewrite bool_decide_eq_false_2.
  - inversion IH; subst. constructor; [|done].
    simpl. by rewrite bool_decide_eq_false_2.
Qed.

Lemma split_char_length sep s :
  length (Js.split_char sep s) = S (count sep s).
Proof.
  induction s as [|c s IH]; simpl; [done|].
  case_bool_decide; simpl; [by rewrite IH|].
  destruct (Js.split_char sep s); simpl in *; lia.
Qed.

Lemma contains_rtrim c s : contains c s = false → contains c (rtrim s) = false.
Proof.
  induction s as [|d s IH]; simpl; [done|].
  intros [H1 H2]%orb_false_iff. specialize (IH H2).
  destruct (rtrim s); [destruct (Js.is_space d); simpl; [done|by rewrite H1]|].
  simpl in *. by rewrite H1.
Qed.

Lemma contains_skip_ws c s :
  contains c s = false → contains c (Js.skip_ws s) = false.
Proof.
  induction s as [|d s IH]; simpl; [done|].
  intros H. destruct (Js.is_space d); [|done].
  apply orb_false_iff in H as [_ H]. by apply IH.
Qed.

Lemma trim_fields_forall (P : string → Prop) first fs :
  (∀ s, P s → P (rtrim s)) → (∀ s, P s → P (Js.skip_ws s)) →
  Forall P fs → Forall P (trim_fields first fs).
Proof.
  intros Hr Hs. revert first.
  induction fs as [|f fs IH]; intros first Hall; [done|].
  inversion Hall; subst. cbn [trim_fields].
  destruct fs as [|g gs].
  - constructor; [|done]. destruct first; auto.
  - constructor; [|by apply IH]. apply Hr. destruct first; auto.
Qed.

Lemma trim_fields_length first fs : length (trim_fields first fs) = length fs.
Proof.
  revert first. induction fs as [|f fs IH]; intros first; [done|].
  cbn [trim_fields]. destruct fs as [|g gs]; [done|].
  cbn [length]. by rewrite IH.
Qed.

Lemma comma_list_no_comma val :
  Forall (λ g, contains "," g = false) (comma_list val).
Proof.
  unfold comma_list. apply trim_fields_forall.
  - apply contains_rtrim.
  - apply contains_skip_ws.
  - apply contains_split.
Qed.

Lemma comma_list_length val : length (comma_list val) = S (count "," val).
Proof. unfold comma_list. by rewrite trim_fields_length, split_char_length. Qed.

Lemma startsWith_split_head sep s g gs :
  Js.split_char sep s = g :: gs → Js.startsWith g s = true.
Proof.
  revert g gs. induction s as [|c s IH]; intros g gs; simpl.
  - by intros [= <- <-].
  - case_bool_decide as Hc; [by intros [= <- <-]|].
    destruct (Js.split_char sep s) as [|g' gs'] eqn:E.
    + by apply split_char_nonempty in E.
    + intros [= <- <-]. simpl. rewrite bool_decide_eq_true_2 by done.
      by eapply IH.
Qed.

Lemma first_piece sep s :
  ∃ g gs, Js.split_char sep s = g :: gs
          ∧ default "" (Js.split_char sep s !! 0%nat) = g
          ∧ default "" (take 1 (Js.split_char sep s) !! 0%nat) = g.
Proof.
  destruct (Js.split_char sep s) as [|g gs] eqn:E;
    [by apply split_char_nonempty in E|].
  by exists g, gs.
Qed.

Lemma first_listed_no_comma h : contains "," (Request.first_listed h) = false.
Proof.
  unfold Request.first_listed. rewrite split_comma_ws_fields.
  pose proof (comma_list_no_comma h) as Hall.
  destruct (comma_list h) as [|g gs]; [done|].
  by inversion Hall.
Qed.

Lemma first_listed_empty : Request.first_listed "" = "".
Proof. reflexivity. Qed.

Lemma slice_is_drop {A} (n : Z) (l : list A) : ∃ k, Js.slice n l = drop k l.
Proof. unfold Js.slice. eauto. Qed.

Lemma indexOf_from_spec (l : list string) (x : string) : ∀ i, 0 ≤ i →
  (x ∈ l → i ≤ Js.indexOf_from i l x) ∧ (x ∉ l → Js.indexOf_from i l x = -1).
Proof.
  induction l as [|y l IH]; intros i Hi; simpl.
  - split; [by intros ?%elem_of_nil|done].
  - case_bool_decide as Hy.
    + subst. split; [lia|]. intros Hn. destruct Hn. by left.
    + destruct (IH (i + 1)) as [H1 H2]; [lia|]. split.
      * intros [->|Hin]%elem_of_cons; [done|]. specialize (H1 Hin). lia.
      * intros Hn. apply H2. intros Hin. apply Hn. by right.
Qed.





Lemma join_cons sep f g fs :
  Sample.join sep (f :: g :: fs) = f +:+ sep +:+ Sample.join sep (g :: fs).
Proof. reflexivity. Qed.


Lemma join_split sep s : Sample.join (String sep "") (Js.split_char sep s) = s.
Proof.
  induction s as [|c s IH]; [done|]. cbn [Js.split_char].
  case_bool_decide as Hc.
  - subst c. destruct (Js.split_char sep s) as [|g gs] eqn:E;
      [by apply split_char_nonempty in E|].
    rewrite join_cons. by rewrite IH.
  - destruct (Js.split_char sep s) as [|g gs] eqn:E;
      [by apply split_char_nonempty in E|].
    destruct gs as [|g' gs]; cbn [Sample.join] in *; [by rewrite IH|].
    rewrite app_cons. by rewrite IH.
Qed.

(** The first piece of a split is the text up to the first separator. *)
Lemma split_head_cut sep s g gs :
  Js.split_char sep s = g :: gs → ∃ rest, s = g +:+ rest ∧ cut_at sep rest.
Proof.
  revert g gs. induction s as [|c s IH]; intros g gs; cbn [Js.split_char].
  - intros [= <- <-]. exists "". by split; [|left].
  - case_bool_decide as Hc.
    + intros [= <- <-]. subst c. exists (String sep s).
      split; [done|]. right. by eexists.
    + destruct (Js.split_char sep s) as [|g' gs'] eqn:E;
        [by apply split_char_nonempty in E|].
      intros [= <- <-]. destruct (IH _ _ eq_refl) as (rest & -> & Hcut).
      by exists rest.
Qed.

(** Dropping leading entries of the reversed list keeps, reversed, the
    leading entries of the list. *)
Lemma rev_drop_rev {A} (k : nat) (l : list A) :
  rev (drop k (rev l)) = take (length l - k) l.
Proof. by rewrite skipn_rev, rev_involutive. Qed.

(** ** Header reads *)

(** At a name that no member of [Object.prototype] bears, [get] returns a
    string. *)
Lemma get_literal (field : string) (c : Context) :
  Js.object_member (Js.toLowerCase field) = false →
  Request.get field c = FieldText (Request.get_text field c).
Proof.
  unfold Request.get_text, Request.get. intros ->.
  destruct (_ || _); [done|]. by destruct (_ !! _).
Qed.

(** A header that is not the referrer is read under its lower-case name. *)
Lemma get_plain (field : string) (c : Context) :
  Js.toLowerCase field ≠ "referer" → Js.toLowerCase field ≠ "referrer" →
  Request.get_text field c
  = Js.str_or (req_headers (ctx_req c) !! Js.toLowerCase field) "".
Proof.
  intros H1 H2. unfold Request.get_text, Request.get.
  rewrite !bool_decide_eq_false_2 by done. cbn [orb].
  destruct (_ !! _) as [s|]; [by rewrite str_or_some|].
  by destruct (Js.object_member _).
Qed.

Lemma slice_nil {A} (n : Z) : Js.slice n ([] : list A) = [].
Proof. unfold Js.slice. apply drop_nil. Qed.

Lemma ips_untrusted (c : Context) :
  proxy (ctx_app c) = false → Request.ips c = Value [].
Proof.
  intros Hp. unfold Request.ips. rewrite Hp. cbn [andb].
  by rewrite slice_nil; destruct (0 <? _).
Qed.

Lemma ips_text (c : Context) (val : string) :
  Request.get (proxyIpHeader (ctx_app c)) c = FieldText val →
  Request.ips c
  = Value (keep_last (maxIpsCount (ctx_app c))
             (if proxy (ctx_app c) && Js.str_truthy val
              then comma_list val else [])).
Proof.
  intros Hg. unfold Request.ips. rewrite Hg. cbn [Request.field_truthy].
  rewrite <- slice_keep_last, <- split_comma_ws_fields.
  by destruct (proxy (ctx_app c) && Js.str_truthy val).
Qed.

Lemma ips_member (c : Context) (name : string) :
  proxy (ctx_app c) = true →
  Request.get (proxyIpHeader (ctx_app c)) c = FieldMember name →
  Request.ips c = Raised (Request.TypeError "val.split is not a function").
Proof. intros Hp Hg. unfold Request.ips. by rewrite Hg, Hp. Qed.

(** ** Request getters *)

Section RequestProperties.

Variable new_URL : string → option URLRecord.
Variable fresh_check : gmap string string → gmap string string → bool.
Variable net_isIP : string → Z.

(** C6, amended.  Client address resolution.  Without proxy trust [ips] is
    empty and a first read of [ip] gives the remote address of the socket
    (the empty string if there is none), whatever the forwarded-for header
    says.  With proxy trust and a header value that is a string, [ips] is
    that value split on commas, in header order (nearest client first), cut
    down to its last [maxIpsCount] entries when that count is positive; if
    instead the configured header name is that of a member the header
    object inherits and no such header was sent, reading [ips], and with it
    a first read of [ip], raises.  A first read of [ip] gives the first
    entry of [ips], else the socket address, else the empty string, and
    stores it.  A stored address that is not empty is returned by every
    later read, which leaves the context as it is; a stored empty string is
    not: the next read resolves the address again. *)
Theorem client_ip_resolution (c : Context) :
  let app := ctx_app c in
  let address := remoteAddress (Request.socket c) in
  let resolved l := Js.str_or (l !! 0%nat) (Js.str_or address "") in
  (proxy app = false →
     Request.ips c = Value [] ∧
     (Js.ostr_truthy (ip_slot c) = false →
      Request.ip c = Value (Js.str_or address "",
                            with_ip_slot (Some (Js.str_or address "")) c) ∧
      ∀ a, address = Some a → Request.ip c = Value (a, with_ip_slot (Some a) c))) ∧
  (∀ val, proxy app = true →
     Request.get (proxyIpHeader app) c = FieldText val →
     let listed := if Js.str_truthy val then comma_list val else [] in
     Request.ips c = Value (keep_last (maxIpsCount app) listed) ∧
     keep_last (maxIpsCount app) listed `suffix_of` listed ∧
     (0 < maxIpsCount app →
      Z.of_nat (length (keep_last (maxIpsCount app) listed)) ≤ maxIpsCount app)) ∧
  (∀ name, proxy app = true →
     Request.get (proxyIpHeader app) c = FieldMember name →
     ∃ e, Request.ips c = Raised e ∧
          (Js.ostr_truthy (ip_slot c) = false → Request.ip c = Raised e)) ∧
  (∀ l, Js.ostr_truthy (ip_slot c) = false → Request.ips c = Value l →
     Request.ip c = Value (resolved l, with_ip_slot (Some (resolved l)) c)) ∧
  (∀ v, ip_slot c = Some v → Js.str_truthy v = true → Request.ip c = Value (v, c)) ∧
  (ip_slot c = Some "" → Request.ip c = Request.ip (with_ip_slot None c)).
Proof.
  intros app address resolved. split_and!.
  - intros Hp. pose proof (ips_untrusted c Hp) as Hnil.
    split; [done|]. intros Hslot. unfold Request.ip. rewrite Hslot, Hnil. cbn.
    fold address. split; [done|]. intros a ->. by rewrite str_or_some.
  - intros val Hp Hg listed. rewrite (ips_text c val Hg). fold app.
    rewrite Hp. cbn [andb]. fold listed.
    split_and!; [done|apply keep_last_suffix|apply keep_last_length].
  - intros name Hp Hg. eexists. rewrite (ips_member c name Hp Hg).
    split; [done|]. intros Hslot. unfold Request.ip.
    by rewrite Hslot, (ips_member c name Hp Hg).
  - intros l Hslot Hl. unfold Request.ip. by rewrite Hslot, Hl.
  - intros v Hv Ht. unfold Request.ip. rewrite Hv. cbn. by rewrite Ht.
  - intros Hv. unfold Request.ip. by rewrite Hv.
Qed.

(** C7.  [fresh] is the conditional-header comparison of the request and
    response headers when the method is GET or HEAD and the response status
    is 2xx or 304, and false for every other method or status; so it is
    true only for such a method and status; [stale] is its negation. *)
Theorem fresh_only_for_reads (c : Context) :
  let s := Response.status c in
  let read := bool_decide (Request.method c = "GET")
              || bool_decide (Request.method c = "HEAD") in
  let cacheable := ((200 <=? s) && (s <? 300)) || (s =? 304) in
  Request.fresh fresh_check c
    = (if read && cacheable
       then fresh_check (Request.header c) (Response.header c) else false) ∧
  (Request.fresh fresh_check c = true →
     (Request.method c = "GET" ∨ Request.method c = "HEAD") ∧
     (200 ≤ s < 300 ∨ s = 304)) ∧
  Request.stale fresh_check c = negb (Request.fresh fresh_check c).
Proof.
  intros s read cacheable.
  assert (Request.fresh fresh_check c
    = (if read && cacheable
       then fresh_check (Request.header c) (Response.header c) else false)) as Heq.
  { unfold Request.fresh, read, cacheable. fold s.
    destruct (bool_decide (Request.method c = "GET"));
      destruct (bool_decide (Request.method c = "HEAD")); cbn;
      by destruct ((200 <=? s) && (s <? 300) || (s =? 304)). }
  split_and!; [done| |done].
  rewrite Heq. unfold read, cacheable.
  destruct (decide (Request.method c = "GET")) as [Hg|Hg];
    destruct (decide (Request.method c = "HEAD")) as [Hh|Hh];
    rewrite ?(bool_decide_eq_true_2 _ Hg), ?(bool_decide_eq_false_2 _ Hg),
            ?(bool_decide_eq_true_2 _ Hh), ?(bool_decide_eq_false_2 _ Hh); cbn;
    try done;
    (destruct ((200 <=? s) && (s <? 300) || (s =? 304)) eqn:E; [|done]; intros _;
     split; [by eauto|];
     apply orb_true_iff in E as [E|E];
     [apply andb_true_iff in E as [E1 E2]; left; lia | right; lia]).
Qed.

(** C8, amended.  For a host name that is not an IP address literal and an
    offset that is not negative, [subdomains] is the host name split on
    dots, reversed, without its leading [subdomainOffset] components; for an
    IP address literal it is empty.  The offset is 2 when the options give
    none. *)
Theorem subdomains_of_hostname (c : Context) :
  let offset := subdomainOffset (ctx_app c) in
  let hostname := (Request.hostname new_URL c).1 in
  (0 ≤ offset →
   (Request.subdomains new_URL net_isIP c).1
     = if net_isIP hostname =? 0 then claimed_subdomains offset hostname else []) ∧
  (∀ node_env options, opt_subdomainOffset options = None →
     subdomainOffset (App.constructor node_env options) = 2).
Proof.
  intros offset hostname. split.
  - intros Hoff. unfold Request.subdomains. fold offset.
    unfold hostname. destruct (Request.hostname new_URL c) as [h c'].
    cbn [fst]. destruct (net_isIP h =? 0); cbn; [|done].
    unfold claimed_subdomains, Js.reverse. by apply slice_drop.
  - intros node_env options H. cbn. by rewrite H.
Qed.

(** C10.  Reading [URL] always yields a value: on a first read it is the
    URL parsed from the origin followed by the original URL, or the empty
    object when that text does not parse.  The value is stored, and every
    later read, whatever else changed in the context, returns the stored
    value and leaves the context as it is. *)
Theorem URL_total_and_memoized (c : Context) :
  let target := Request.origin c +:+ originalUrl c in
  let v := (Request.URL new_URL c).1 in
  let c' := (Request.URL new_URL c).2 in
  (memoizedURL c = None →
     (∀ u, new_URL target = Some u → v = ParsedURL u) ∧
     (new_URL target = None → v = EmptyObject)) ∧
  memoizedURL c' = Some v ∧
  (∀ c2, memoizedURL c2 = memoizedURL c' → Request.URL new_URL c2 = (v, c2)).
Proof.
  intros target v c'. unfold v, c', Request.URL.
  rewrite str_or_some. fold target.
  destruct (memoizedURL c) as [m|] eqn:Hm; cbn [fst snd].
  - split_and!; [done|done|]. intros c2 H2. unfold Request.URL. by rewrite H2, Hm.
  - split_and!.
    + intros _. split; [by intros u ->|by intros ->].
    + done.
    + intros c2 H2. unfold Request.URL. by rewrite H2.
Qed.

End RequestProperties.

(** ** The query string *)

Section QueryProperties.

Variable parse : string → Url.
Variable stringify : Url → string.
Variable qs_parse : string → gmap string QValue.
Variable qs_stringify : gmap string QValue → string.


End QueryProperties.

(** ** Error recovery *)

Section RecoveryProperties.

Variable statuses : Statuses.

Lemma set_all_frame hs c :
  Response.status (Response.set_all hs c) = Response.status c ∧
  Response.headerSent (Response.set_all hs c) = Response.headerSent c ∧
  res_sent (ctx_res (Response.set_all hs c)) = res_sent (ctx_res c).
Proof.
  revert c. induction hs as [|[k v] hs IH]; intros c; [done|].
  change (Response.set_all ((k, v) :: hs) c)
    with (Response.set_all hs (Response.set k v c)).
  destruct (IH (Response.set k v c)) as (-> & -> & ->).
  unfold Response.set. by destruct (Response.headerSent c) eqn:E.
Qed.

(** C1, amended.  When recovery runs on an error with headers not yet sent
    and the response writable, the status it resolves is 404 if the error
    carries the ENOENT code (even when it also has a status of its own),
    else the error's [status] or, failing that, its [statusCode]; whatever
    is not a number with an entry in the status table becomes 500.  That
    status is recorded on the context and on the error.  The body is the
    error's message exactly when the error is exposable and the reason
    phrase of the resolved status otherwise, and the response is ended with
    it; should the table have no phrase at all for the resolved status, no
    body is written and the call raises. *)
Theorem onerror_resolves_status (t : Thrown) (e : Error) (c : Context) :
  let r := Ctx.onerror statuses t c in
  let explicit := Js.or (err_status e) (err_statusCode e) in
  let wanted := if bool_decide (err_code e = Js.Str "ENOENT")
                then Js.Num 404 else explicit in
  let resolved :=
    match wanted with
    | Js.Num n => if Js.ostr_truthy (status_message statuses n) then n else 500
    | _ => 500
    end in
  let outward := if Js.truthy (err_expose e) then Some (err_message e)
                 else status_message statuses resolved in
  Ctx.normalize t = Some e →
  Response.headerSent c = false → Response.writable c = true →
  Response.status (Ctx.rec_ctx r) = resolved ∧
  err_status <$> Ctx.rec_err r = Some (Js.Num resolved) ∧
  match outward with
  | Some msg =>
      res_sent (ctx_res (Ctx.rec_ctx r)) = res_sent (ctx_res c) ++ [Text msg] ∧
      res_finished (ctx_res (Ctx.rec_ctx r)) = true ∧
      Ctx.rec_completion r = Returned
  | None =>
      res_sent (ctx_res (Ctx.rec_ctx r)) = res_sent (ctx_res c) ∧
      Ctx.rec_completion r ≠ Returned
  end.
Proof.
  intros r explicit wanted resolved outward Hn Hs Hw.
  assert (Ctx.resolve_status statuses e = resolved) as Hres.
  { unfold Ctx.resolve_status, resolved, wanted, explicit.
    destruct (bool_decide (err_code e = Js.Str "ENOENT")); [done|].
    by destruct (Js.or (err_status e) (err_statusCode e)). }
  unfold r, Ctx.onerror. rewrite Hn. unfold Ctx.recover.
  rewrite Hs, Hw. cbn [orb negb]. rewrite Hres. fold outward.
  set (c1 := Response.set_type_text _).
  assert (Response.headerSent c1 = false
          ∧ res_sent (ctx_res c1) = res_sent (ctx_res c)) as [Hh1 Hsent1].
  { unfold c1, Response.set_type_text, Response.set.
    destruct (set_all_frame (err_headers e) (Ctx.unset_all_headers c))
      as (_ & Hh & Hsn).
    assert (Response.headerSent (Ctx.unset_all_headers c) = false) as Hu by done.
    rewrite Hh, Hu. unfold Response.headerSent in *. cbn. by rewrite Hh, Hsn. }
  assert (Response.status (Response.set_status resolved c1) = resolved ∧
          Response.headerSent (Response.set_status resolved c1) = false ∧
          res_sent (ctx_res (Response.set_status resolved c1))
          = res_sent (ctx_res c)) as (Hst & Hh2 & Hsent2).
  { unfold Response.set_status. by rewrite Hh1. }
  destruct outward as [msg|]; cbn.
  - unfold Response.set_length, Response.set. rewrite Hh2. cbn.
    unfold Response.status in *. cbn. by rewrite Hsent2.
  - done.
Qed.


End RecoveryProperties.

(** ** Dispatch and finalization *)

Section DispatchProperties.

Variable statuses : Statuses.

(** The finalizer never touches the status of the response. *)
Lemma respond_keeps_status (c : Context) :
  Response.status (App.respond statuses c).1 = Response.status c.
Proof.
  unfold App.respond.
  repeat match goal with
  | |- context [if ?b then _ else _] => destruct b
  | |- context [match ?x with _ => _ end] => destruct x
  end; cbn [fst]; try done;
  unfold Response.set_body_null, Response.set_length, Response.set_type_text,
    Response.remove, Response.set, Response.status;
  repeat match goal with
  | |- context [if ?b then _ else _] => destruct b
  end; done.
Qed.

(** When automatic responding is switched off or the response is not
    writable, the finalizer does nothing. *)
Lemma respond_skips (c : Context) :
  ctx_respond c = Js.Bool false ∨ Response.writable c = false →
  App.respond statuses c = (c, Returned).
Proof.
  unfold App.respond. intros [H|H].
  - by rewrite bool_decide_eq_true_2.
  - rewrite H. by destruct (bool_decide _).
Qed.

(** When the finalizer runs on a status that forbids a body, on a HEAD
    request or on a body it can serialize, it returns and the response is
    ended or a source is piped into it. *)
Lemma respond_sends (c : Context) :
  ctx_respond c ≠ Js.Bool false → Response.writable c = true →
  status_empty statuses (Response.status c) = true ∨ Request.method c = "HEAD"
    ∨ Shape.serializable c = true →
  (App.respond statuses c).2 = Returned ∧
  (res_finished (ctx_res (App.respond statuses c).1) = true
   ∨ is_Some (res_piped (ctx_res (App.respond statuses c).1))).
Proof.
  intros Hr Hw Hs. unfold App.respond.
  rewrite bool_decide_eq_false_2 by done. rewrite Hw. cbn [negb].
  destruct (status_empty statuses (Response.status c)); [by split; [|left]|].
  destruct (decide (Request.method c = "HEAD")) as [Hm|Hm].
  { rewrite bool_decide_eq_true_2 by done. by split; [|left]. }
  rewrite bool_decide_eq_false_2 by done.
  destruct Hs as [?|[?|Hs]]; [done|done|]. unfold Shape.serializable in Hs.
  destruct (body_slot c) as [| |b|s|n|n|n|n|[s| |m]]; try done;
    try (by split; [|right]); try (by split; [|left]).
  - destruct (explicitNullBody c); by split; [|left].
  - destruct (explicitNullBody c); by split; [|left].
  - rewrite Hs. by split; [|left].
Qed.

(** C3.  For every request the listener sets the status of the raw response
    to 404 before the composed chain is called: the chain is applied to
    the created context with the status of its response at 404, whatever
    status the response arrived with, and what the listener hands back is
    determined by what the chain returns for that context.  For a chain
    that completes and leaves the status as it found it: if the chain
    switched automatic responding off, or the response is not writable,
    its context is handed back untouched, still at 404; and otherwise, on a
    HEAD request or with a body that can be serialized, the context handed
    back is the one the finalizer made of the chain's context, no error is
    emitted, the status is 404 and the response is ended or a source is
    piped into it.  In particular, for a chain that touches nothing, on a
    response that was not ended, a writable socket and a method other than
    HEAD, the response is ended with status 404 and the reason phrase of
    404 (the text [404] over HTTP/2 or without a phrase) as its body.
    The status table is assumed to allow a body for 404. *)
Theorem handleRequest_starts_at_404 (app : Application) (req : IncomingMessage)
    (res : ServerResponse) (fn : Context → App.Settled) :
  let ctx := App.createContext app req res in
  let seen := App.prepare ctx in
  let h := App.callback statuses app fn req res in
  let fallback :=
    if 2 <=? httpVersionMajor req then Js.String_of 404
    else Js.str_or (status_message statuses 404) (Js.String_of 404) in
  status_empty statuses 404 = false →
  (statusCode (ctx_res seen) = 404 ∧ ctx_req seen = req ∧ ctx_app seen = app ∧
   body_slot seen = BodyUndefined ∧
   res_headers (ctx_res seen) = res_headers res ∧
   res_sent (ctx_res seen) = res_sent res) ∧
  (∀ fn', fn' seen = fn seen → App.callback statuses app fn' req res = h) ∧
  (∀ ctx', fn seen = App.Fulfilled ctx' →
     Response.status ctx' = Response.status seen →
     (ctx_respond ctx' = Js.Bool false ∨ Response.writable ctx' = false →
      h = App.mkHandled ctx' [] Returned) ∧
     (ctx_respond ctx' ≠ Js.Bool false → Response.writable ctx' = true →
      Request.method ctx' = "HEAD" ∨ Shape.serializable ctx' = true →
      h = App.mkHandled (App.respond statuses ctx').1 [] Returned ∧
      statusCode (ctx_res (App.h_ctx h)) = 404 ∧
      (res_finished (ctx_res (App.h_ctx h)) = true
       ∨ is_Some (res_piped (ctx_res (App.h_ctx h)))))) ∧
  (fn seen = App.Fulfilled seen →
   res_finished res = false → sock_writable (req_socket req) = true →
   req_method req ≠ "HEAD" →
   statusCode (ctx_res (App.h_ctx h)) = 404 ∧
   res_finished (ctx_res (App.h_ctx h)) = true ∧
   res_sent (ctx_res (App.h_ctx h)) = res_sent res ++ [Text fallback] ∧
   App.h_emitted h = [] ∧
   App.h_completion h = Returned).
Proof.
  intros ctx seen h fallback He. split_and!; try done.
  - intros fn' H. unfold h, App.callback, App.handleRequest.
    fold ctx. fold seen. by rewrite H.
  - intros ctx' Hf Hst. split.
    + intros Hoff. unfold h, App.callback, App.handleRequest.
      fold ctx. fold seen. rewrite Hf. by rewrite (respond_skips ctx' Hoff).
    + intros Hr Hw Hs.
      destruct (respond_sends ctx' Hr Hw (or_intror Hs)) as [Hret Hdone].
      pose proof (respond_keeps_status ctx') as Hk.
      unfold h, App.callback, App.handleRequest. fold ctx. fold seen.
      rewrite Hf. destruct (App.respond statuses ctx') as [c2 k].
      cbn [fst snd] in *. subst k. cbn [App.h_ctx].
      split_and!; [done| |done].
      unfold Response.status in Hk, Hst. by rewrite Hk, Hst.
  - intros Hf Hfin Hsock Hm.
    unfold h, App.callback, App.handleRequest. fold ctx. fold seen.
    rewrite Hf. unfold App.respond.
    rewrite bool_decide_eq_false_2 by done.
    assert (Response.writable seen = true) as ->.
    { unfold Response.writable. cbn. by rewrite Hfin, Hsock. }
    cbn [negb].
    change (Response.status seen) with 404. rewrite He.
    rewrite bool_decide_eq_false_2 by done.
    change (body_slot seen) with BodyUndefined.
    change (explicitNullBody seen) with false. cbn iota.
    change (httpVersionMajor (ctx_req seen)) with (httpVersionMajor req).
    change (Response.message statuses seen) with (status_message statuses 404).
    fold fallback.
    destruct res as [sc hd [] fin snt pp ob]; cbn; by split_and!.
Qed.

(** Open the context and its raw response, then decide the guards on the
    headers-sent flag by the hypothesis on it. *)
Ltac by_headers_sent c :=
  destruct c as [? ? [? ? ? ? ? ? ?] ? ? ? ? ? ?]; cbn; by intros ->.

Lemma set_body_null_sent (c : Context) :
  headersSent (ctx_res c) = true →
  Response.set_body_null c = with_body_slot BodyNull c.
Proof. by_headers_sent c. Qed.

Lemma set_body_null_unsent (c : Context) :
  headersSent (ctx_res c) = false →
  Response.set_body_null c
  = with_res (set_res_headers
      (delete "transfer-encoding" (delete "content-length"
         (delete "content-type" (res_headers (ctx_res c))))))
      (with_body_slot BodyNull c).
Proof. by_headers_sent c. Qed.

Lemma set_length_unsent (n : Z) (c : Context) :
  headersSent (ctx_res c) = false →
  Response.set_length n c
  = with_res (set_res_headers
      (<["content-length" := Js.String_of n]> (res_headers (ctx_res c)))) c.
Proof. by_headers_sent c. Qed.

(** C4, amended.  When the finalizer runs (automatic response not switched
    off, response writable) and the declared status forbids a body,
    whatever body was staged is discarded: the body of the context becomes
    [null], the response is ended, and the finalizer hands no payload to
    the transport, neither written nor piped.  While the head is not sent,
    the headers that describe a payload are unstaged, so no content-length
    header is left, and if nothing was written before the response goes
    out without body bytes.  Once the head is sent the headers stay as they
    were sent, a content-length header included. *)
Theorem respond_strips_body (c : Context) :
  ctx_respond c ≠ Js.Bool false →
  Response.writable c = true →
  status_empty statuses (Response.status c) = true →
  let c' := (App.respond statuses c).1 in
  (App.respond statuses c).2 = Returned ∧
  body_slot c' = BodyNull ∧
  res_finished (ctx_res c') = true ∧
  res_sent (ctx_res c') = res_sent (ctx_res c) ∧
  res_piped (ctx_res c') = res_piped (ctx_res c) ∧
  payload_bytes (ctx_res c') = payload_bytes (ctx_res c) ∧
  (headersSent (ctx_res c) = false →
   Response.header c'
   = delete "transfer-encoding"
       (delete "content-length" (delete "content-type" (Response.header c))) ∧
   Response.header c' !! "content-length" = None ∧
   (res_sent (ctx_res c) = [] → payload_bytes (ctx_res c') = 0)) ∧
  (headersSent (ctx_res c) = true → Response.header c' = Response.header c).
Proof.
  intros Hr Hw He c'.
  assert (App.respond statuses c
          = (with_res (res_end None) (Response.set_body_null c), Returned)) as Heq.
  { unfold App.respond. rewrite bool_decide_eq_false_2 by done. by rewrite Hw, He. }
  unfold c'. rewrite Heq. cbn [fst snd].
  assert (res_sent (ctx_res (with_res (res_end None) (Response.set_body_null c)))
          = res_sent (ctx_res c)) as Hsent.
  { destruct (headersSent (ctx_res c)) eqn:Hh.
    - rewrite set_body_null_sent by done. cbn. apply app_nil_r.
    - rewrite set_body_null_unsent by done. cbn. apply app_nil_r. }
  unfold payload_bytes. rewrite Hsent.
  split_and!; try done.
  - by destruct (headersSent (ctx_res c)) eqn:Hh;
      [rewrite set_body_null_sent|rewrite set_body_null_unsent].
  - by destruct (headersSent (ctx_res c)) eqn:Hh;
      [rewrite set_body_null_sent|rewrite set_body_null_unsent].
  - intros Hh. rewrite set_body_null_unsent by done. unfold Response.header. cbn.
    split_and!; [done| |by intros ->].
    rewrite lookup_delete_ne by done. by rewrite lookup_delete_eq.
  - intros Hh. by rewrite set_body_null_sent.
Qed.

(** C5, amended.  When the finalizer runs on a HEAD request whose status
    allows a body, it hands no payload to the transport, neither written
    nor piped, keeps the staged body and ends the response.  If the headers
    are not sent yet, no content-length header is staged and the staged
    body has a known length, the content-length header is set to that
    length before the response is ended; in every other case the headers
    are left as they are. *)
Theorem respond_head (c : Context) :
  ctx_respond c ≠ Js.Bool false →
  Response.writable c = true →
  status_empty statuses (Response.status c) = false →
  Request.method c = "HEAD" →
  let c' := (App.respond statuses c).1 in
  (App.respond statuses c).2 = Returned ∧
  res_sent (ctx_res c') = res_sent (ctx_res c) ∧
  res_piped (ctx_res c') = res_piped (ctx_res c) ∧
  res_finished (ctx_res c') = true ∧
  body_slot c' = body_slot c ∧
  (∀ n, headersSent (ctx_res c) = false →
        Response.has "Content-Length" c = false →
        Response.length c = Some n →
        Response.header c'
        = <["content-length" := Js.String_of n]> (Response.header c)) ∧
  (headersSent (ctx_res c) = true ∨ Response.has "Content-Length" c = true
     ∨ Response.length c = None →
   Response.header c' = Response.header c).
Proof.
  intros Hr Hw He Hm c'. unfold c', App.respond.
  rewrite bool_decide_eq_false_2 by done. rewrite Hw, He, Hm. cbn [negb fst snd].
  rewrite bool_decide_eq_true_2 by done.
  destruct (headersSent (ctx_res c)) eqn:Hh; cbn [negb andb].
  { cbn. rewrite app_nil_r. split_and!; try done. }
  destruct (Response.has "Content-Length" c) eqn:Hhas; cbn [negb andb].
  { cbn. rewrite app_nil_r. split_and!; try done. }
  destruct (Response.length c) as [n|] eqn:Hl.
  - rewrite set_length_unsent by done.
    cbn. rewrite app_nil_r. split_and!; try done.
    + by intros m _ _ [= <-].
    + by intros [?|[?|?]].
  - cbn. rewrite app_nil_r. split_and!; try done.
Qed.

End DispatchProperties.

(** ** The theorems at concrete requests *)

Import Sample.

(** The forwarded-for header ["1.2.3.4, 5.6.7.8"] without and with proxy
    trust, and an application whose address header is named
    [constructor]. *)
Lemma client_ip_resolution_witness :
  Request.ips untrusted_ctx = Value [] ∧
  Request.ip untrusted_ctx
  = Value ("10.0.0.9", with_ip_slot (Some "10.0.0.9") untrusted_ctx) ∧
  Request.ips trusted_ctx = Value ["1.2.3.4"; "5.6.7.8"] ∧
  Request.ip trusted_ctx
  = Value ("1.2.3.4", with_ip_slot (Some "1.2.3.4") trusted_ctx) ∧
  (∃ e, Request.ips Cases.member_header = Raised e).
Proof.
  destruct (client_ip_resolution untrusted_ctx) as (H0 & _).
  destruct (H0 eq_refl) as [Hips Hip].
  destruct (Hip eq_refl) as [_ Ha].
  destruct (client_ip_resolution trusted_ctx) as (_ & H1 & _ & H2 & _).
  destruct (H1 "1.2.3.4, 5.6.7.8" eq_refl eq_refl) as (E & _).
  destruct (client_ip_resolution Cases.member_header) as (_ & _ & H3 & _).
  destruct (H3 "constructor" eq_refl eq_refl) as (e & He & _).
  split_and!.
  - exact Hips.
  - exact (Ha _ eq_refl).
  - rewrite E. reflexivity.
  - rewrite (H2 _ eq_refl E). reflexivity.
  - exists e. exact He.
Defined.

(** C6 as stated fails for an address that resolves to the empty string:
    the empty string is stored on the first read, yet the next read does
    not return what was stored but resolves the address again, and finds
    another one once a forwarded-for header was assigned. *)
Lemma client_ip_empty_counterexample :
  Request.ip Cases.unaddressed
  = Value ("", with_ip_slot (Some "") Cases.unaddressed) ∧
  ip_slot (Request.set_header Cases.late_headers
             (with_ip_slot (Some "") Cases.unaddressed)) = Some "" ∧
  Request.ip (Request.set_header Cases.late_headers
                (with_ip_slot (Some "") Cases.unaddressed))
  = Value ("1.2.3.4",
           with_ip_slot (Some "1.2.3.4")
             (Request.set_header Cases.late_headers
                (with_ip_slot (Some "") Cases.unaddressed))) ∧
  Request.ip (Request.set_header Cases.late_headers
                (with_ip_slot (Some "") Cases.unaddressed))
  ≠ Value ("", Request.set_header Cases.late_headers
                 (with_ip_slot (Some "") Cases.unaddressed)).
Proof. split_and!; try reflexivity. discriminate. Qed.

(** A conditional GET whose entity tag still matches. *)
Lemma fresh_only_for_reads_witness :
  Request.fresh fresh_check conditional_get = true ∧
  (Request.method conditional_get = "GET" ∨ Request.method conditional_get = "HEAD") ∧
  (200 ≤ Response.status conditional_get < 300 ∨ Response.status conditional_get = 304) ∧
  Request.stale fresh_check conditional_get = false.
Proof.
  destruct (fresh_only_for_reads fresh_check conditional_get) as (_ & H & Hs).
  destruct (H eq_refl) as [Hm Hr].
  split_and!; [reflexivity|exact Hm|exact Hr|].
  rewrite Hs. reflexivity.
Defined.

(** The host [a.b.example.com] under the default offset. *)
Lemma subdomains_of_hostname_witness :
  0 ≤ subdomainOffset (ctx_app nested_host) ∧
  subdomainOffset (ctx_app nested_host) = 2 ∧
  (Request.hostname new_URL nested_host).1 = "a.b.example.com" ∧
  (Request.subdomains new_URL isIP nested_host).1 = ["b"; "a"].
Proof.
  assert (0 ≤ subdomainOffset (ctx_app nested_host)) as H
    by (vm_compute; discriminate).
  destruct (subdomains_of_hostname new_URL isIP nested_host) as [Hsub _].
  split_and!; [exact H|reflexivity|reflexivity|].
  rewrite (Hsub H). reflexivity.
Defined.

(** C8 as stated fails for the host [127.0.0.1]: the getter returns the
    empty list where the stated formula gives two components. *)
Lemma subdomains_ip_literal_counterexample :
  (Request.hostname new_URL literal_host).1 = "127.0.0.1" ∧
  (Request.subdomains new_URL isIP literal_host).1 = [] ∧
  claimed_subdomains (subdomainOffset (ctx_app literal_host)) "127.0.0.1"
    = ["0"; "127"] ∧
  (Request.subdomains new_URL isIP literal_host).1
    ≠ claimed_subdomains (subdomainOffset (ctx_app literal_host))
        (Request.hostname new_URL literal_host).1.
Proof. split_and!; [reflexivity|reflexivity|reflexivity|discriminate]. Qed.

(** A request without a host header: the URL text does not parse, the first
    read gives the empty object and the second read gives it again. *)
Lemma URL_total_and_memoized_witness :
  memoizedURL plain_ctx = None ∧
  new_URL (Request.origin plain_ctx +:+ originalUrl plain_ctx) = None ∧
  (Request.URL new_URL plain_ctx).1 = EmptyObject ∧
  Request.URL new_URL (Request.URL new_URL plain_ctx).2
    = (EmptyObject, (Request.URL new_URL plain_ctx).2).
Proof.
  destruct (URL_total_and_memoized new_URL plain_ctx) as (H1 & H2 & H3).
  destruct (H1 eq_refl) as [_ Hnone].
  split_and!; [reflexivity|reflexivity|exact (Hnone eq_refl)|].
  rewrite (H3 _ eq_refl). rewrite (Hnone eq_refl). reflexivity.
Defined.

(** *** The stand-ins keep the laws of the services *)















(** A handler throws status 418 with the exposable message ["teapot"]. *)
Lemma onerror_resolves_status_witness :
  Ctx.normalize (ThrownError teapot) = Some teapot ∧
  Response.headerSent plain_ctx = false ∧
  Response.writable plain_ctx = true ∧
  Response.status (Ctx.rec_ctx (Ctx.onerror statuses (ThrownError teapot) plain_ctx))
    = 418 ∧
  res_sent (ctx_res (Ctx.rec_ctx (Ctx.onerror statuses (ThrownError teapot) plain_ctx)))
    = [Text "teapot"].
Proof.
  pose proof (onerror_resolves_status statuses (ThrownError teapot) teapot plain_ctx
                eq_refl eq_refl eq_refl) as (Hs & _ & Hb & _).
  split_and!; [reflexivity|reflexivity|reflexivity|exact Hs|exact Hb].
Defined.

(** C1 as stated fails for an error with status 403 and code ENOENT: the
    stated order gives 403, recovery answers 404. *)
Lemma onerror_enoent_counterexample :
  claimed_status statuses missing_file = 403 ∧
  Response.status
    (Ctx.rec_ctx (Ctx.onerror statuses (ThrownError missing_file) plain_ctx)) = 404 ∧
  Response.status
    (Ctx.rec_ctx (Ctx.onerror statuses (ThrownError missing_file) plain_ctx))
    ≠ claimed_status statuses missing_file.
Proof. split_and!; [reflexivity|reflexivity|discriminate]. Qed.


(** A response that arrives with status 200 and a chain that sets
    nothing. *)
Lemma handleRequest_starts_at_404_witness :
  statusCode response = 200 ∧
  status_empty statuses 404 = false ∧
  statusCode (ctx_res (App.h_ctx
    (App.callback statuses (settings false) silent_chain
       (request "GET" "/" []) response))) = 404 ∧
  res_sent (ctx_res (App.h_ctx
    (App.callback statuses (settings false) silent_chain
       (request "GET" "/" []) response))) = [Text "Not Found"].
Proof.
  destruct (handleRequest_starts_at_404 statuses (settings false)
              (request "GET" "/" []) response silent_chain eq_refl)
    as (_ & _ & _ & H).
  assert (req_method (request "GET" "/" []) ≠ "HEAD") as Hm by discriminate.
  destruct (H eq_refl eq_refl eq_refl Hm) as (Hs & _ & Hb & _).
  split_and!; [reflexivity|reflexivity|exact Hs|exact Hb].
Defined.

(** Status 204 with the text ["hello"] staged. *)
Lemma respond_strips_body_witness :
  ctx_respond no_content_ctx ≠ Js.Bool false ∧
  Response.writable no_content_ctx = true ∧
  status_empty statuses (Response.status no_content_ctx) = true ∧
  body_slot no_content_ctx = BodyString "hello" ∧
  body_slot (App.respond statuses no_content_ctx).1 = BodyNull ∧
  res_sent (ctx_res (App.respond statuses no_content_ctx).1) = [] ∧
  payload_bytes (ctx_res (App.respond statuses no_content_ctx).1) = 0 ∧
  Response.header (App.respond statuses no_content_ctx).1 !! "content-length" = None.
Proof.
  assert (ctx_respond no_content_ctx ≠ Js.Bool false) as Hr by discriminate.
  pose proof (respond_strips_body statuses no_content_ctx Hr eq_refl eq_refl)
    as (_ & Hb & _ & Hs & _ & _ & Hu & _).
  destruct (Hu eq_refl) as (_ & Hh & Hp).
  split_and!; [exact Hr|reflexivity|reflexivity|reflexivity|exact Hb|exact Hs
              |exact (Hp eq_refl)|exact Hh].
Defined.

(** C4 as stated fails once the head was flushed: the finalizer ends the
    204 response, and the content-length header that went out with the head
    still gives the length of the staged text, not zero. *)
Lemma respond_flushed_no_content_counterexample :
  ctx_respond Cases.flushed_no_content ≠ Js.Bool false ∧
  Response.writable Cases.flushed_no_content = true ∧
  status_empty statuses (Response.status Cases.flushed_no_content) = true ∧
  body_slot Cases.flushed_no_content = BodyString "hello" ∧
  (App.respond statuses Cases.flushed_no_content).2 = Returned ∧
  res_finished (ctx_res (App.respond statuses Cases.flushed_no_content).1) = true ∧
  Response.header (App.respond statuses Cases.flushed_no_content).1
    !! "content-length" = Some "5".
Proof. split_and!; try reflexivity; discriminate. Qed.

(** A HEAD request with the text ["hello"] staged. *)
Lemma respond_head_witness :
  ctx_respond head_ctx ≠ Js.Bool false ∧
  Response.writable head_ctx = true ∧
  status_empty statuses (Response.status head_ctx) = false ∧
  Request.method head_ctx = "HEAD" ∧
  res_sent (ctx_res (App.respond statuses head_ctx).1) = [] ∧
  Response.header (App.respond statuses head_ctx).1 !! "content-length" = Some "5".
Proof.
  assert (ctx_respond head_ctx ≠ Js.Bool false) as Hr by discriminate.
  pose proof (respond_head statuses head_ctx Hr eq_refl eq_refl eq_refl)
    as (_ & Hs & _ & _ & _ & Hl & _).
  split_and!; [exact Hr|reflexivity|reflexivity|reflexivity|exact Hs|].
  rewrite (Hl 5 eq_refl eq_refl eq_refl). reflexivity.
Defined.

(** C5 as stated fails once the head was flushed: the finalizer ends the
    HEAD response and no content-length header carries the length of the
    staged body. *)
Lemma respond_head_flushed_counterexample :
  ctx_respond head_flushed_ctx ≠ Js.Bool false ∧
  Response.writable head_flushed_ctx = true ∧
  status_empty statuses (Response.status head_flushed_ctx) = false ∧
  Request.method head_flushed_ctx = "HEAD" ∧
  body_slot head_flushed_ctx = BodyString "hello" ∧
  (App.respond statuses head_flushed_ctx).2 = Returned ∧
  Response.header (App.respond statuses head_flushed_ctx).1 !! "content-length"
    ≠ Some (Js.String_of (Js.byteLength "hello")).
Proof. split_and!; try reflexivity; discriminate. Qed.

(** * Further properties of the request facade *)

(** ** Getters *)

Section MoreRequest.

Variable new_URL : string → option URLRecord.
Variable fresh_check : gmap string string → gmap string string → bool.
Variable net_isIP : string → Z.

(** X1.  [host] and [protocol] are single values: whatever list a proxy or
    a client put in the header, the result never contains a comma. *)
Theorem host_is_single (c : Context) :
  contains "," (Request.host c) = false ∧
  contains "," (Request.protocol c) = false.
Proof.
  split.
  - unfold Request.host.
    repeat match goal with
    | |- context [if ?b then _ else _] => destruct b
    end; try done; apply first_listed_no_comma.
  - unfold Request.protocol.
    repeat match goal with
    | |- context [if ?b then _ else _] => destruct b
    end; try done; apply first_listed_no_comma.
Qed.

(** X2.  For a host that does not start with a bracket, [hostname] is the
    host up to its first colon: it contains no colon, and the host is the
    host name followed by nothing or by a text that starts with a colon.
    Reading it leaves the context as it is. *)
Theorem hostname_drops_port (c : Context) :
  (∀ rest, Request.host c ≠ String "[" rest) →
  contains ":" (Request.hostname new_URL c).1 = false ∧
  (∃ rest, Request.host c = (Request.hostname new_URL c).1 +:+ rest
           ∧ cut_at ":" rest) ∧
  (Request.hostname new_URL c).2 = c.
Proof.
  intros Hb. unfold Request.hostname.
  destruct (Request.host c) as [|a rest] eqn:Hh.
  { split_and!; [done| |done]. exists "". by split; [|left]. }
  destruct (decide (a = "["%char)) as [->|Ha]; [by destruct (Hb rest)|].
  destruct (first_piece ":"%char (String a rest)) as (g & gs & Hg & _ & ->).
  split_and!.
  - destruct a as [[][][][][][][][]]; try done;
      cbn [fst]; by eapply contains_split_head.
  - destruct a as [[][][][][][][][]]; try done;
      cbn [fst]; by eapply split_head_cut.
  - by destruct a as [[][][][][][][][]].
Qed.

(** X3.  No entry of [ips] contains a comma; with proxy trust, a header
    that is present and no positive maximum, [ips] has one entry more than
    the header has commas. *)
Theorem ips_entries (c : Context) :
  (∀ l, Request.ips c = Value l →
     Forall (λ entry, contains "," entry = false) l) ∧
  (∀ val, Request.get (proxyIpHeader (ctx_app c)) c = FieldText val →
     proxy (ctx_app c) = true → Js.str_truthy val = true →
     maxIpsCount (ctx_app c) ≤ 0 →
     ∃ l, Request.ips c = Value l ∧ length l = S (count "," val)).
Proof.
  split.
  - intros l Hl.
    destruct (Request.get (proxyIpHeader (ctx_app c)) c) as [val|name] eqn:Hg.
    + rewrite (ips_text c val Hg) in Hl. injection Hl as <-.
      unfold keep_last.
      assert (Forall (λ entry, contains "," entry = false)
                (if proxy (ctx_app c) && Js.str_truthy val
                 then comma_list val else [])) as Hall.
      { destruct (proxy (ctx_app c) && Js.str_truthy val); [|done].
        apply comma_list_no_comma. }
      destruct (0 <? maxIpsCount (ctx_app c)); [by apply Forall_drop|done].
    + destruct (proxy (ctx_app c)) eqn:Hp.
      * by rewrite (ips_member c name Hp Hg) in Hl.
      * rewrite (ips_untrusted c Hp) in Hl. by injection Hl as <-.
  - intros val Hg Hp Ht Hmax. rewrite (ips_text c val Hg), Hp, Ht.
    cbn [andb]. eexists. split; [done|]. unfold keep_last.
    destruct (0 <? maxIpsCount (ctx_app c)) eqn:E; [apply Z.ltb_lt in E; lia|].
    apply comma_list_length.
Qed.

(** X4.  [type] is the content type up to its first semicolon: the value
    of the header is a string, [type] contains no semicolon, and the value
    is [type] followed by nothing or by a text that starts with a
    semicolon; it is empty when the request has no content-type header. *)
Theorem type_without_parameters (c : Context) :
  let value := Request.get_text "Content-Type" c in
  Request.get "Content-Type" c = FieldText value ∧
  contains ";" (Request.type c) = false ∧
  (∃ rest, value = Request.type c +:+ rest ∧ cut_at ";" rest) ∧
  (req_headers (ctx_req c) !! "content-type" = None → Request.type c = "").
Proof.
  intros value. unfold Request.type. fold value.
  destruct (first_piece ";"%char value) as (g & gs & Hg & -> & _).
  split_and!.
  - by apply get_literal.
  - destruct (Js.str_truthy _); cbn [negb]; [|done].
    by eapply contains_split_head.
  - destruct (Js.str_truthy value) eqn:Ht; cbn [negb].
    + by eapply split_head_cut.
    + exists "". split; [|by left].
      unfold Js.str_truthy in Ht. apply negb_false_iff in Ht.
      by apply bool_decide_eq_true in Ht.
  - intros Hnone.
    assert (value = "") as Hget.
    { unfold value. rewrite get_plain by done.
      change (Js.toLowerCase "Content-Type") with "content-type".
      by rewrite Hnone. }
    rewrite Hget in *. done.
Qed.

(** X5.  [subdomains] lists labels of the host name.  No entry contains a
    dot.  For a host name that is not an IP literal and an offset that is
    not negative, the host name is, joined by dots, the entries in reverse
    order followed by as many further labels as the offset says (all the
    labels, if there are fewer); so there are as many entries as the host
    name has labels beyond the offset.  For an IP literal there is no
    entry.  Reading [subdomains] changes the context only as reading
    [hostname] does. *)
Theorem subdomains_are_labels (c : Context) :
  let offset := subdomainOffset (ctx_app c) in
  let hostname := (Request.hostname new_URL c).1 in
  let subs := (Request.subdomains new_URL net_isIP c).1 in
  Forall (λ label, contains "." label = false) subs ∧
  (0 ≤ offset → net_isIP hostname = 0 →
   ∃ kept,
     hostname = dotted (rev subs ++ kept) ∧
     Forall (λ label, contains "." label = false) kept ∧
     length kept = (Z.to_nat offset `min` S (count "." hostname))%nat ∧
     length subs = (S (count "." hostname) - Z.to_nat offset)%nat) ∧
  (net_isIP hostname ≠ 0 → subs = []) ∧
  (Request.subdomains new_URL net_isIP c).2 = (Request.hostname new_URL c).2.
Proof.
  intros offset hostname subs. unfold subs, hostname, Request.subdomains.
  fold offset. destruct (Request.hostname new_URL c) as [h c']. cbn [fst snd].
  split_and!.
  - destruct (net_isIP h =? 0); cbn [negb fst]; [|done].
    destruct (slice_is_drop offset (Js.reverse (Js.split_char "." h))) as [k ->].
    apply Forall_drop. unfold Js.reverse. apply Forall_rev, contains_split.
  - intros Hoff ->. cbn. rewrite slice_drop by done. unfold Js.reverse.
    pose proof (split_char_length "." h) as Hlen.
    exists (drop (length (Js.split_char "." h) - Z.to_nat offset)
              (Js.split_char "." h)).
    split_and!.
    + rewrite rev_drop_rev, take_drop. unfold dotted. by rewrite join_split.
    + apply Forall_drop, contains_split.
    + rewrite length_drop. lia.
    + rewrite length_drop, length_rev. lia.
  - intros Hip. apply Z.eqb_neq in Hip. by rewrite Hip.
  - by destruct (net_isIP h =? 0).
Qed.

(** X6.  [secure] holds exactly when the socket is encrypted, or proxies
    are trusted and the first protocol listed in the forwarded-protocol
    header is [https]. *)
Theorem secure_iff (c : Context) :
  Request.secure c = true ↔
  encrypted (Request.socket c) = true ∨
  (proxy (ctx_app c) = true ∧
   ∃ proto, Request.get "X-Forwarded-Proto" c = FieldText proto ∧
            Request.first_listed proto = "https").
Proof.
  pose proof (get_literal "X-Forwarded-Proto" c eq_refl) as Hlit.
  assert ((∃ proto, Request.get "X-Forwarded-Proto" c = FieldText proto ∧
                    Request.first_listed proto = "https")
          ↔ Request.first_listed (Request.get_text "X-Forwarded-Proto" c) = "https")
    as ->.
  { rewrite Hlit. split; [by intros (p & [= <-] & ?)|by eexists]. }
  clear Hlit. unfold Request.secure, Request.protocol.
  destruct (encrypted (Request.socket c)) eqn:He.
  { rewrite bool_decide_eq_true_2 by done. split; [by left|done]. }
  destruct (proxy (ctx_app c)) eqn:Hp; cbn [negb].
  - destruct (Js.str_truthy (Request.get_text "X-Forwarded-Proto" c)) eqn:Ht.
    + rewrite bool_decide_eq_true. split; [by right|].
      by intros [?|[_ ?]].
    + assert (Request.get_text "X-Forwarded-Proto" c = "") as ->.
      { unfold Js.str_truthy in Ht. apply negb_false_iff in Ht.
        by apply bool_decide_eq_true in Ht. }
      rewrite first_listed_empty. rewrite bool_decide_eq_false_2 by done.
      split; [done|]. by intros [?|[_ ?]].
  - rewrite bool_decide_eq_false_2 by done.
    split; [done|]. by intros [?|[? _]].
Qed.

(** X7.  Without proxy trust the forwarded-protocol and forwarded-host
    headers count for nothing: replacing the headers of the request by
    headers that differ only under those two names leaves [protocol],
    [host], [origin] and [secure] as they were. *)
Theorem forwarded_headers_need_trust (c : Context) (h' : gmap string string) :
  proxy (ctx_app c) = false →
  (∀ k, k ≠ "x-forwarded-proto" → k ≠ "x-forwarded-host" →
        h' !! k = req_headers (ctx_req c) !! k) →
  let c' := Request.set_header h' c in
  Request.protocol c' = Request.protocol c ∧
  Request.host c' = Request.host c ∧
  Request.origin c' = Request.origin c ∧
  Request.secure c' = Request.secure c.
Proof.
  intros Hp Hh c'.
  assert (Request.protocol c' = Request.protocol c) as Hproto.
  { unfold Request.protocol. cbn. by rewrite Hp. }
  assert (Request.host c' = Request.host c) as Hhost.
  { unfold Request.host. cbn [c' Request.set_header with_req ctx_app ctx_req
      httpVersionMajor]. rewrite Hp. cbn [negb Js.str_truthy].
    rewrite !(get_plain ":authority"), !(get_plain "Host") by done.
    change (Js.toLowerCase ":authority") with ":authority".
    change (Js.toLowerCase "Host") with "host".
    cbn [ctx_req with_req req_headers]. by rewrite !Hh. }
  split_and!; [done|done| |].
  - unfold Request.origin. by rewrite Hproto, Hhost.
  - unfold Request.secure. by rewrite Hproto.
Qed.

(** X8.  [idempotent] holds exactly for the methods GET, HEAD, PUT, DELETE,
    OPTIONS and TRACE; a request that is [fresh] is idempotent. *)
Theorem idempotent_methods (c : Context) :
  (Request.idempotent c = true ↔
   Request.method c ∈ ["GET"; "HEAD"; "PUT"; "DELETE"; "OPTIONS"; "TRACE"]) ∧
  (Request.fresh fresh_check c = true → Request.idempotent c = true).
Proof.
  assert (Request.idempotent c = true ↔
    Request.method c ∈ ["GET"; "HEAD"; "PUT"; "DELETE"; "OPTIONS"; "TRACE"])
    as Hiff.
  { unfold Request.idempotent, Js.indexOf.
    set (methods := ["GET"; "HEAD"; "PUT"; "DELETE"; "OPTIONS"; "TRACE"]).
    destruct (indexOf_from_spec methods (Request.method c) 0) as [H1 H2]; [lia|].
    rewrite negb_true_iff, Z.eqb_neq.
    destruct (decide (Request.method c ∈ methods)) as [Hin|Hn].
    - specialize (H1 Hin). split; [done|]. intros _.
      unfold Z.lnot. lia.
    - rewrite (H2 Hn). split; [done|]. intros Hin. by destruct Hn. }
  split; [done|]. intros Hf. apply Hiff.
  unfold Request.fresh in Hf.
  destruct (decide (Request.method c = "GET")) as [->|Hg];
    [by repeat constructor|].
  destruct (decide (Request.method c = "HEAD")) as [->|Hh];
    [by repeat constructor|].
  by rewrite !bool_decide_eq_false_2 in Hf.
Qed.

(** X9.  An address assigned to [ip] that is not empty is what [ip] returns
    from then on, whatever the headers say; an empty assignment is not
    remembered, and the next read resolves the address as a first read
    does: from the first entry of [ips], else the socket address, and it
    raises where [ips] raises. *)
Theorem ip_override (c : Context) :
  (∀ v, v ≠ "" →
     Request.ip (Request.set_ip v c) = Value (v, Request.set_ip v c)) ∧
  Request.ip (Request.set_ip "" c) = Request.ip (with_ip_slot None c) ∧
  (∀ l, Request.ips c = Value l →
     ∃ c', Request.ip (Request.set_ip "" c)
           = Value (Js.str_or (l !! 0%nat)
                      (Js.str_or (remoteAddress (Request.socket c)) ""), c')) ∧
  (∀ e, Request.ips c = Raised e → Request.ip (Request.set_ip "" c) = Raised e).
Proof.
  assert (Request.ips (Request.set_ip "" c) = Request.ips c) as Hips by done.
  split_and!.
  - intros v Hv. unfold Request.ip, Request.set_ip. cbn.
    unfold Js.str_truthy. by rewrite bool_decide_eq_false_2.
  - done.
  - intros l Hl. unfold Request.ip. cbn [Request.set_ip with_ip_slot ip_slot].
    cbn [Js.ostr_truthy Js.str_truthy]. cbn [negb].
    rewrite Hips, Hl. by eexists.
  - intros e He. unfold Request.ip. cbn [Request.set_ip with_ip_slot ip_slot].
    cbn [Js.ostr_truthy Js.str_truthy]. cbn [negb].
    by rewrite Hips, He.
Qed.

End MoreRequest.

(** ** The URL of the request and the query cache *)

Section MoreQuery.

Variable parse : string → Url.
Variable stringify : Url → string.
Variable qs_parse : string → gmap string QValue.
Variable qs_stringify : gmap string QValue → string.
Variable inherited : string → bool.

(** X10.  [href] ends with the original URL, and is the original URL alone
    when that starts with an [http] or [https] scheme in any letter case.
    Rewriting the URL of the request, through [url], [querystring] or
    [query], never changes [href]. *)
Theorem href_keeps_original (c : Context) :
  (∃ p, Request.href c = p +:+ originalUrl c) ∧
  (Js.has_http_scheme (originalUrl c) = true → Request.href c = originalUrl c) ∧
  (∀ v, Request.href (Request.set_url v c) = Request.href c) ∧
  (∀ str, Request.href (Query.set_querystring parse stringify str c)
          = Request.href c) ∧
  (∀ obj, Request.href (Query.set_query parse stringify qs_stringify obj c)
          = Request.href c).
Proof.
  assert (∀ str, Request.href (Query.set_querystring parse stringify str c)
                 = Request.href c) as Hq.
  { intros str. unfold Query.set_querystring. by case_bool_decide. }
  split_and!.
  - unfold Request.href. destruct (Js.has_http_scheme (originalUrl c)).
    + by exists "".
    + by exists (Request.origin c).
  - unfold Request.href. by intros ->.
  - done.
  - done.
  - intros obj. apply Hq.
Qed.

(** X11.  The query cache stays coherent.  If every entry of the cache is
    what the parser makes of its key, then after a read of [query] that is
    still so, no entry was lost and the request is untouched; if the query
    string is not the name of an inherited member, the read returns the
    parsed query string and a second read returns the same value without
    changing anything.  If the query string is such a name and has no entry,
    the read returns the inherited member and stores nothing. *)
Theorem query_cache_coherent (s : Query.Cached) :
  let str := Query.querystring parse (Query.cached_ctx s) in
  let r := Query.query parse qs_parse inherited s in
  coherent qs_parse (Query.querycache s) →
  coherent qs_parse (Query.querycache r.2) ∧
  Query.querycache s ⊆ Query.querycache r.2 ∧
  Query.cached_ctx r.2 = Query.cached_ctx s ∧
  (inherited str = false →
     r.1 = Query.ParsedQuery (qs_parse str) ∧
     Query.query parse qs_parse inherited r.2 = (r.1, r.2)) ∧
  (inherited str = true → Query.querycache s !! str = None →
     r = (Query.Inherited str, s)).
Proof.
  intros str r Hc. unfold r, Query.query. fold str.
  destruct (Query.querycache s !! str) as [m|] eqn:Hm.
  - cbn [fst snd]. split_and!; try done.
    intros _. split; [by rewrite (Hc _ _ Hm)|].
    unfold Query.query. fold str. by rewrite Hm.
  - destruct (inherited str) eqn:Hi; cbn [fst snd].
    + split_and!; try done.
    + split_and!; try done.
      * intros k m. cbn [Query.querycache].
        destruct (decide (str = k)) as [<-|Hne].
        -- rewrite lookup_insert_eq. by intros [= <-].
        -- rewrite lookup_insert_ne by done. apply Hc.
      * cbn [Query.querycache]. by apply insert_subseteq.
      * intros _. split; [done|].
        unfold Query.query. cbn [Query.cached_ctx Query.querycache]. fold str.
        by rewrite lookup_insert_eq.
Qed.

End MoreQuery.

(** * Further properties of the application *)

(** X12.  The settings the constructor stores are never falsy: the
    subdomain offset is not zero, and the header name and the environment
    are not empty.  An offset option other than zero is kept, an offset
    option of zero gives 2, and every maximum count is kept as it is. *)
Theorem constructor_defaults (node_env : option string) (options : Options) :
  let app := App.constructor node_env options in
  subdomainOffset app ≠ 0 ∧
  proxyIpHeader app ≠ "" ∧
  env app ≠ "" ∧
  (∀ n, opt_subdomainOffset options = Some n → n ≠ 0 → subdomainOffset app = n) ∧
  (opt_subdomainOffset options = Some 0 → subdomainOffset app = 2) ∧
  (∀ n, opt_maxIpsCount options = Some n → maxIpsCount app = n).
Proof.
  cbn. split_and!.
  - destruct (opt_subdomainOffset options) as [n|]; cbn; [|done].
    destruct (n =? 0) eqn:E; [done|]. by apply Z.eqb_neq.
  - destruct (opt_proxyIpHeader options) as [s|]; cbn; [|done].
    unfold Js.str_truthy. case_bool_decide; cbn; done.
  - destruct (opt_env options) as [s|]; cbn.
    + unfold Js.str_truthy. case_bool_decide; cbn; [|done].
      destruct node_env as [e|]; cbn; [|done].
      unfold Js.str_truthy. case_bool_decide; cbn; done.
    + destruct node_env as [e|]; cbn; [|done].
      unfold Js.str_truthy. case_bool_decide; cbn; done.
  - intros n -> Hn. cbn. by rewrite (proj2 (Z.eqb_neq n 0) Hn).
  - by intros ->.
  - intros n ->. cbn. destruct (n =? 0) eqn:E; [|done].
    apply Z.eqb_eq in E. by subst.
Qed.

(** ** The default listener *)

Lemma join_indented g gs :
  Sample.join Js.LF ((λ l, "  " +:+ l) <$> (g :: gs))
  = String " " (String " "
      (g +:+ match gs with
             | [] => ""
             | _ => Js.LF +:+ Sample.join Js.LF ((λ l, "  " +:+ l) <$> gs)
             end)).
Proof.
  destruct gs as [|g' gs]; cbn [fmap list_fmap Sample.join].
  - by rewrite app_empty_r.
  - reflexivity.
Qed.

(** Without carriage returns, replacing every line start by two spaces is
    indenting every line. *)
Lemma indent_lines_no_cr s :
  contains "013" s = false → Js.indent_lines s = indented s.
Proof.
  unfold indented, Js.indent_lines.
  induction s as [|c s IH]; [done|].
  cbn [contains]. intros [Hc Hs]%orb_false_iff. apply bool_decide_eq_false in Hc.
  specialize (IH Hs).
  destruct (Js.split_char "010" s) as [|g gs] eqn:E;
    [by apply split_char_nonempty in E|].
  rewrite join_indented in IH.
  change ("  " +:+ Js.indent_after s)
    with (String " " (String " " (Js.indent_after s))) in IH.
  injection IH as IH.
  cbn [Js.indent_after Js.split_char]. rewrite E.
  case_bool_decide as Hnl.
  - subst c. cbn [Js.is_line_terminator].
    rewrite join_indented.
    change ("  " +:+ Js.indent_after s)
      with (String " " (String " " (Js.indent_after s))).
    rewrite IH. rewrite join_indented. reflexivity.
  - assert (Js.is_line_terminator c = false) as ->.
    { destruct c as [[][][][][][][][]]; try done. }
    rewrite join_indented. rewrite IH. reflexivity.
Qed.

Section MoreLogging.

Variable nullish_rendering : string.

(** X13.  The default listener stays quiet for an error exactly when the
    error has status 404, or is exposable, or the application is silent;
    for an error it never raises, and for anything that is not an error it
    always raises. *)
Theorem default_listener_quiet (app : Application) (e : Error) (trace : string) :
  (App.onerror nullish_rendering app (ThrownError e) trace = App.Quiet ↔
   err_status e = Js.Num 404 ∨ Js.truthy (err_expose e) = true
   ∨ silent app = true) ∧
  (∀ x, App.onerror nullish_rendering app (ThrownError e) trace ≠ App.Raises x) ∧
  (∀ json, ∃ x, App.onerror nullish_rendering app (ThrownNonError json) trace
                = App.Raises x) ∧
  (∃ x, App.onerror nullish_rendering app ThrownNullish trace = App.Raises x).
Proof.
  split_and!.
  - cbn [App.onerror].
    destruct (decide (err_status e = Js.Num 404)) as [H4|H4].
    { rewrite bool_decide_eq_true_2 by done. cbn. split; auto. }
    rewrite bool_decide_eq_false_2 by done. cbn [orb].
    destruct (Js.truthy (err_expose e)); [split; auto|].
    destruct (silent app); [split; auto|].
    split; [done|]. intros [?|[?|?]]; done.
  - intros x. cbn [App.onerror].
    destruct (_ || _); [done|]. by destruct (silent app).
  - intros json. by eexists.
  - by eexists.
Qed.

(** X14.  When the default listener prints an error whose trace has no
    carriage return, the text is a line feed, the lines of the trace each
    behind two spaces, and a line feed. *)
Theorem default_listener_prints_indented (app : Application) (e : Error)
    (trace : string) :
  contains "013" trace = false →
  err_status e ≠ Js.Num 404 → Js.truthy (err_expose e) = false →
  silent app = false →
  App.onerror nullish_rendering app (ThrownError e) trace
  = App.Prints (Js.LF +:+ indented trace +:+ Js.LF).
Proof.
  intros Hcr H4 Hex Hsil. cbn [App.onerror].
  rewrite bool_decide_eq_false_2 by done. rewrite Hex, Hsil. cbn [orb].
  by rewrite indent_lines_no_cr.
Qed.

End MoreLogging.

(** * Further properties of recovery and dispatch *)

Section MoreRecovery.

Variable statuses : Statuses.
Variable nullish_rendering : string.

Lemma set_unsent (k v : string) (c : Context) :
  headersSent (ctx_res c) = false →
  Response.set k v c
  = with_res (set_res_headers
      (<[Js.toLowerCase k := v]> (res_headers (ctx_res c)))) c.
Proof.
  destruct c as [? ? [? ? ? ? ? ? ?] ? ? ? ? ? ?]. cbn. by intros ->.
Qed.

Lemma set_all_unsent (hs : list (string * string)) : ∀ c,
  headersSent (ctx_res c) = false →
  Response.set_all hs c
  = with_res (set_res_headers (staged hs (res_headers (ctx_res c)))) c.
Proof.
  induction hs as [|[k v] hs IH]; intros c Hs.
  - by destruct c as [? ? [? ? ? ? ? ? ?] ? ? ? ? ? ?].
  - change (Response.set_all ((k, v) :: hs) c)
      with (Response.set_all hs (Response.set k v c)).
    rewrite set_unsent by done. rewrite IH by done.
    by destruct c as [? ? [? ? ? ? ? ? ?] ? ? ? ? ? ?].
Qed.

Lemma staged_lookup_other (hs : list (string * string)) (k : string) : ∀ h,
  k ∉ (λ kv, Js.toLowerCase kv.1) <$> hs → staged hs h !! k = h !! k.
Proof.
  induction hs as [|[k' v] hs IH]; intros h Hk; [done|].
  cbn in Hk. apply not_elem_of_cons in Hk as [Hne Hk].
  change (staged ((k', v) :: hs) h)
    with (staged hs (<[Js.toLowerCase k' := v]> h)).
  rewrite IH by done. by rewrite lookup_insert_ne.
Qed.

(** What [recover] returns while the head is unsent and a body text is at
    hand. *)
Lemma recover_unsent (e : Error) (c : Context) (msg : string) :
  Response.headerSent c = false → Response.writable c = true →
  (if Js.truthy (err_expose e) then Some (err_message e)
   else status_message statuses (Ctx.resolve_status statuses e)) = Some msg →
  Ctx.recover statuses e c
  = Ctx.mkRecovery (recovered statuses e msg c)
      (Some (Ctx.with_err_status (Js.Num (Ctx.resolve_status statuses e)) e))
      [(e, c)] Returned.
Proof.
  intros Hs Hw Hmsg. unfold Ctx.recover. rewrite Hs, Hw. cbn [orb negb].
  rewrite Hmsg. f_equal.
  unfold Response.set_type_text, Response.set_length, Response.set_status.
  rewrite set_all_unsent by done.
  destruct c as [? ? [? ? ? ? ? ? ?] ? ? ? ? ? ?].
  unfold Response.headerSent in *. cbn in Hs. subst. reflexivity.
Qed.

Lemma resolve_status_known (e : Error) :
  Js.ostr_truthy (status_message statuses 500) = true →
  Js.ostr_truthy (status_message statuses (Ctx.resolve_status statuses e)) = true.
Proof.
  intros H500. unfold Ctx.resolve_status.
  destruct (if bool_decide (err_code e = Js.Str "ENOENT") then Js.Num 404
            else Js.or (err_status e) (err_statusCode e)) as [| |b|n|s];
    try done.
  cbn [Ctx.known_status].
  by destruct (Js.ostr_truthy (status_message statuses n)) eqn:E.
Qed.

Lemma outward_some (e : Error) :
  Js.ostr_truthy (status_message statuses 500) = true →
  ∃ msg, (if Js.truthy (err_expose e) then Some (err_message e)
          else status_message statuses (Ctx.resolve_status statuses e))
         = Some msg.
Proof.
  intros H500. destruct (Js.truthy (err_expose e)); [by eexists|].
  pose proof (resolve_status_known e H500) as Hk.
  destruct (status_message statuses (Ctx.resolve_status statuses e));
    [by eexists|done].
Qed.

(** X15.  With a status table that has a reason phrase for 500, recovery on
    an unsent and writable response always answers with a status of the
    table: the status of the response has a reason phrase that is not
    empty, the error carries the same status, the response is ended and
    the call returns. *)
Theorem recovery_status_is_known (t : Thrown) (e : Error) (c : Context) :
  Js.ostr_truthy (status_message statuses 500) = true →
  Ctx.normalize t = Some e →
  Response.headerSent c = false → Response.writable c = true →
  let r := Ctx.onerror statuses t c in
  ∃ phrase, phrase ≠ "" ∧
    status_message statuses (Response.status (Ctx.rec_ctx r)) = Some phrase ∧
    err_status <$> Ctx.rec_err r
    = Some (Js.Num (Response.status (Ctx.rec_ctx r))) ∧
    res_finished (ctx_res (Ctx.rec_ctx r)) = true ∧
    Ctx.rec_completion r = Returned.
Proof.
  intros H500 Hn Hs Hw r. unfold r, Ctx.onerror. rewrite Hn.
  destruct (outward_some e H500) as [msg Hmsg].
  rewrite (recover_unsent e c msg Hs Hw Hmsg). cbn.
  pose proof (resolve_status_known e H500) as Hk.
  destruct (status_message statuses (Ctx.resolve_status statuses e))
    as [p|] eqn:Hp; [|done].
  exists p. split_and!; try done.
  by intros ->.
Qed.

(** X16.  Recovery on an unsent and writable response replaces the staged
    headers: what is left are the headers of the error, then a plain-text
    content type and the byte length of the body on top of them.  So the
    content type and the content length are those of the error body even
    if the error carries headers of these names, and a header that the
    error does not carry is gone. *)
Theorem recovery_resets_headers (t : Thrown) (e : Error) (c : Context)
    (msg : string) :
  Ctx.normalize t = Some e →
  Response.headerSent c = false → Response.writable c = true →
  (if Js.truthy (err_expose e) then Some (err_message e)
   else status_message statuses (Ctx.resolve_status statuses e)) = Some msg →
  let h := Response.header (Ctx.rec_ctx (Ctx.onerror statuses t c)) in
  h = <["content-length" := Js.String_of (Js.byteLength msg)]>
        (<["content-type" := "text/plain; charset=utf-8"]>
           (staged (err_headers e) ∅)) ∧
  h !! "content-type" = Some "text/plain; charset=utf-8" ∧
  h !! "content-length" = Some (Js.String_of (Js.byteLength msg)) ∧
  (∀ k, k ≠ "content-type" → k ≠ "content-length" →
        k ∉ (λ kv, Js.toLowerCase kv.1) <$> err_headers e → h !! k = None).
Proof.
  intros Hn Hs Hw Hmsg h. unfold h, Ctx.onerror. rewrite Hn.
  rewrite (recover_unsent e c msg Hs Hw Hmsg). cbn [Ctx.rec_ctx].
  unfold Response.header, recovered. cbn [with_res ctx_res res_headers].
  split_and!.
  - done.
  - rewrite lookup_insert_ne by done. by rewrite lookup_insert_eq.
  - by rewrite lookup_insert_eq.
  - intros k H1 H2 Hk. rewrite !lookup_insert_ne by done.
    by rewrite staged_lookup_other.
Qed.

(** X17.  A thrown value that is not an error is never shown to the client:
    on an unsent and writable response recovery answers 500 with the reason
    phrase of 500 as body, while the rendering of the value goes only into
    the message of the wrapping error that is emitted. *)
Theorem non_error_is_not_shown (json : string) (c : Context) (phrase : string) :
  status_message statuses 500 = Some phrase →
  Response.headerSent c = false → Response.writable c = true →
  let r := Ctx.onerror statuses (ThrownNonError json) c in
  Response.status (Ctx.rec_ctx r) = 500 ∧
  res_sent (ctx_res (Ctx.rec_ctx r)) = res_sent (ctx_res c) ++ [Text phrase] ∧
  err_message <$> Ctx.rec_err r = Some ("non-error thrown: " +:+ json) ∧
  Ctx.rec_emitted r = [(Ctx.new_Error ("non-error thrown: " +:+ json), c)].
Proof.
  intros H500 Hs Hw r. unfold r, Ctx.onerror. cbn [Ctx.normalize].
  rewrite (recover_unsent _ c phrase Hs Hw); [done|].
  cbn. exact H500.
Qed.

(** X18.  The listeners of the error channel see the error as it was
    thrown: on an unsent and writable response the one event emitted
    carries the context before recovery touched it and the error with the
    status and the expose flag it arrived with.  So an ENOENT error without
    a status, not exposable, in an application that is not silent, is
    printed by the default listener although the response is answered with
    404. *)
Theorem listener_sees_error_as_thrown (e : Error) (c : Context) (trace : string) :
  Response.headerSent c = false → Response.writable c = true →
  let r := Ctx.onerror statuses (ThrownError e) c in
  (∃ ev, Ctx.rec_emitted r = [ev] ∧ ev.2 = c ∧ err_status ev.1 = err_status e ∧
         err_expose ev.1 = err_expose e) ∧
  (err_code e = Js.Str "ENOENT" → err_status e = Js.Undefined →
   Js.truthy (err_expose e) = false → silent (ctx_app c) = false →
   Js.ostr_truthy (status_message statuses 404) = true →
   Response.status (Ctx.rec_ctx r) = 404 ∧
   ∀ ev, ev ∈ Ctx.rec_emitted r →
     App.onerror nullish_rendering (ctx_app c) (ThrownError ev.1) trace
     = App.Prints (Js.LF +:+ Js.indent_lines trace +:+ Js.LF)).
Proof.
  intros Hs Hw r.
  assert (Ctx.rec_emitted r = [(e, c)]) as Hem.
  { unfold r, Ctx.onerror, Ctx.recover. cbn [Ctx.normalize]. rewrite Hs, Hw.
    cbn [orb negb].
    by destruct (if Js.truthy (err_expose e) then _ else _). }
  split; [by exists (e, c)|].
  intros Hcode Hst Hex Hsil H404. split.
  - assert (Ctx.resolve_status statuses e = 404) as Hres.
    { unfold Ctx.resolve_status. rewrite Hcode.
      rewrite bool_decide_eq_true_2 by done. cbn. by rewrite H404. }
    unfold r, Ctx.onerror, Ctx.recover. cbn [Ctx.normalize]. rewrite Hs, Hw.
    cbn [orb negb]. rewrite Hres, Hex.
    destruct (status_message statuses 404) as [p|] eqn:Hp; [|done].
    unfold Response.set_type_text, Response.set_length, Response.set_status.
    rewrite set_all_unsent by done.
    destruct c as [? ? [? ? ? ? ? ? ?] ? ? ? ? ? ?].
    unfold Response.headerSent in *. cbn in Hs. subst. reflexivity.
  - intros ev. rewrite Hem. intros ->%list_elem_of_singleton.
    cbn [fst App.onerror]. rewrite Hst, Hex, Hsil.
    by rewrite bool_decide_eq_false_2.
Qed.

End MoreRecovery.

Lemma pretty_N_go_nonempty (x : N) : ∀ s, s ≠ "" → pretty_N_go x s ≠ "".
Proof.
  induction (N.lt_wf_0 x) as [x _ IH]. intros s Hs.
  destruct (decide (x = 0)%N) as [->|Hx]; [by rewrite pretty_N_go_0|].
  rewrite pretty_N_go_step by lia.
  apply IH; [|done]. apply N.div_lt; lia.
Qed.

(** The decimal text of an integer is never empty. *)
Lemma String_of_nonempty (n : Z) : Js.String_of n ≠ "".
Proof.
  unfold Js.String_of, pretty, pretty_Z.
  destruct n as [|p|p]; [done| |done].
  unfold pretty, pretty_positive, pretty, pretty_N.
  rewrite decide_False by done.
  rewrite pretty_N_go_step by lia. by apply pretty_N_go_nonempty.
Qed.

Lemma payload_snoc (l : list Chunk) (k : Chunk) :
  foldr (λ k n, chunk_bytes k + n) 0 (l ++ [k])
  = foldr (λ k n, chunk_bytes k + n) 0 l + chunk_bytes k.
Proof. induction l as [|x l IH]; cbn; [lia|]. rewrite IH. lia. Qed.

Section MoreDispatch.

Variable statuses : Statuses.

(** X19.  Whatever the body, the finalizer leaves the status, the raw
    request, the application and the original URL alone and only ever adds
    to the payload already sent; when automatic responding is switched off
    or the response is not writable it changes nothing at all. *)
Theorem respond_frame (c : Context) :
  let c' := (App.respond statuses c).1 in
  Response.status c' = Response.status c ∧
  ctx_req c' = ctx_req c ∧
  ctx_app c' = ctx_app c ∧
  originalUrl c' = originalUrl c ∧
  res_sent (ctx_res c) `prefix_of` res_sent (ctx_res c') ∧
  (ctx_respond c = Js.Bool false ∨ Response.writable c = false →
   App.respond statuses c = (c, Returned)).
Proof.
  intros c'. unfold c'. clear c'.
  assert (ctx_respond c = Js.Bool false ∨ Response.writable c = false →
          App.respond statuses c = (c, Returned)) as Hskip.
  { unfold App.respond. intros [H|H].
    - by rewrite bool_decide_eq_true_2.
    - rewrite H. by destruct (bool_decide _). }
  cut (Response.status (App.respond statuses c).1 = Response.status c ∧
       ctx_req (App.respond statuses c).1 = ctx_req c ∧
       ctx_app (App.respond statuses c).1 = ctx_app c ∧
       originalUrl (App.respond statuses c).1 = originalUrl c ∧
       res_sent (ctx_res c)
         `prefix_of` res_sent (ctx_res (App.respond statuses c).1)).
  { intros (? & ? & ? & ? & ?). by split_and!. }
  clear Hskip. unfold App.respond.
  destruct c as [a rq [sc hd hs fin snt pp ob] ou rs mu ip bd en].
  repeat match goal with
  | |- context [if ?b then _ else _] => destruct b eqn:?
  | |- context [match ?x with _ => _ end] => destruct x eqn:?
  end; cbn;
  unfold Response.set_body_null, Response.set_length, Response.set_type_text,
    Response.remove, Response.set, Response.status, Response.headerSent; cbn;
  repeat match goal with
  | |- context [if ?b then _ else _] => destruct b eqn:?
  end; cbn;
  (split_and!; try done; rewrite ?app_nil_r;
   first [reflexivity | by apply prefix_app_r]).
Qed.

(** X20.  When the finalizer runs on a request other than HEAD with a
    status that allows a body and no body was staged (and no explicit empty
    body was asked for), the response is never sent empty: the body is the
    message of the response, which is the reason phrase of its status, or
    the status in decimal when the request came over HTTP/2 or there is no
    such phrase; while the head is unsent
    the content type is plain text and the content length is the byte
    length of that text. *)
Theorem respond_fallback_body (c : Context) :
  let code := Response.status c in
  let text := if 2 <=? httpVersionMajor (ctx_req c) then Js.String_of code
              else Js.str_or (status_message statuses code) (Js.String_of code) in
  let c' := (App.respond statuses c).1 in
  ctx_respond c ≠ Js.Bool false → Response.writable c = true →
  status_empty statuses code = false → Request.method c ≠ "HEAD" →
  body_slot c = BodyNull ∨ body_slot c = BodyUndefined →
  explicitNullBody c = false →
  text ≠ "" ∧
  (App.respond statuses c).2 = Returned ∧
  res_sent (ctx_res c') = res_sent (ctx_res c) ++ [Text text] ∧
  res_finished (ctx_res c') = true ∧
  (headersSent (ctx_res c) = false →
   Response.header c' !! "content-type" = Some "text/plain; charset=utf-8" ∧
   Response.header c' !! "content-length"
   = Some (Js.String_of (Js.byteLength text))).
Proof.
  intros code text c' Hr Hw He Hm Hb Hx.
  assert (text ≠ "") as Htext.
  { unfold text. destruct (2 <=? _); [apply String_of_nonempty|].
    unfold Js.str_or. destruct (status_message statuses code) as [p|];
      [|apply String_of_nonempty].
    destruct (Js.str_truthy p) eqn:Hp; [|apply String_of_nonempty].
    by intros ->. }
  split; [done|].
  assert (App.respond statuses c
          = (with_res (res_end (Some (Text text)))
               (if negb (headersSent (ctx_res c))
                then Response.set_length (Js.byteLength text)
                       (Response.set_type_text c)
                else c), Returned)) as Heq.
  { unfold App.respond. rewrite bool_decide_eq_false_2 by done.
    rewrite Hw. fold code. rewrite He. rewrite bool_decide_eq_false_2 by done.
    cbn [negb]. rewrite Hx. by destruct Hb as [-> | ->]. }
  unfold c'. rewrite Heq. cbn [fst snd].
  destruct c as [a rq [sc hd hs fin snt pp ob] ou rs mu ip bd en].
  destruct hs; cbn; split_and!; try done.
  intros _. unfold Response.header. cbn.
  split; [|by rewrite lookup_insert_eq].
  rewrite lookup_insert_ne by done. by rewrite lookup_insert_eq.
Qed.

(** X21.  Whenever the finalizer itself sets the content length (no staged
    body, or a structured body with a JSON text), on an unsent head and a
    request other than HEAD, the content-length header is the number of
    payload bytes the finalizer hands to the transport. *)
Theorem respond_length_matches_payload (c : Context) :
  let c' := (App.respond statuses c).1 in
  ctx_respond c ≠ Js.Bool false → Response.writable c = true →
  headersSent (ctx_res c) = false →
  status_empty statuses (Response.status c) = false →
  Request.method c ≠ "HEAD" →
  (body_slot c = BodyNull ∨ body_slot c = BodyUndefined
   ∨ ∃ s, body_slot c = BodyObject (JsonText s)) →
  (App.respond statuses c).2 = Returned ∧
  res_finished (ctx_res c') = true ∧
  Response.header c' !! "content-length"
  = Some (Js.String_of (payload_bytes (ctx_res c') - payload_bytes (ctx_res c))).
Proof.
  intros c' Hr Hw Hh He Hm Hb. unfold c', App.respond.
  rewrite bool_decide_eq_false_2 by done.
  rewrite Hw, He. rewrite bool_decide_eq_false_2 by done. cbn [negb].
  rewrite Hh. cbn [negb].
  destruct c as [a rq [sc hd hs fin snt pp ob] ou rs mu ip bd en].
  cbn in Hh, Hb. subst hs.
  destruct Hb as [Hb|[Hb|[s Hb]]]; subst bd; cbn [explicitNullBody];
    [destruct en|destruct en|];
    unfold payload_bytes, Response.header; cbn;
    rewrite ?app_nil_r, ?payload_snoc, ?Z.add_simpl_l, ?Z.sub_diag,
      lookup_insert_eq;
    by split_and!.
Qed.

(** When the finalizer runs, it ends the response or pipes a source into
    it, or else it raises a fresh error and leaves the context as it
    was. *)
Lemma respond_outcome (c : Context) :
  ctx_respond c ≠ Js.Bool false → Response.writable c = true →
  match (App.respond statuses c).2 with
  | Returned => res_finished (ctx_res (App.respond statuses c).1) = true
                ∨ is_Some (res_piped (ctx_res (App.respond statuses c).1))
  | Threw e => (App.respond statuses c).1 = c ∧ ∃ m, e = Ctx.new_Error m
  end.
Proof.
  intros Hr Hw. unfold App.respond.
  rewrite bool_decide_eq_false_2 by done. rewrite Hw. cbn [negb].
  destruct (status_empty statuses (Response.status c)); [by left|].
  destruct (bool_decide (Request.method c = "HEAD")); [by left|].
  destruct (body_slot c) as [| |b|s|n|n|n|n|[s| |m]].
  - destruct (explicitNullBody c); by left.
  - destruct (explicitNullBody c); by left.
  - by left.
  - by left.
  - right. by eexists.
  - right. by eexists.
  - right. by eexists.
  - right. by eexists.
  - by left.
  - destruct (headersSent (ctx_res c)); cbn [negb fst snd]; [by left|].
    split; [done|by eexists].
  - cbn [fst snd]. split; [done|by eexists].
Qed.

(** X22.  With a status table that has a reason phrase for 500, the
    dispatcher answers every request whose chain settles on an unsent and
    writable response: after a chain that completes (automatic responding
    on) the response is ended or a source is piped into it, also when the
    staged body cannot be serialized; after a chain that fails with a value
    other than [null] or [undefined] the response is ended and the error was
    emitted once.  A chain that fails with [null] or [undefined] gets no
    answer and no event: the context stays as the chain left it. *)
Theorem handleRequest_answers (c : Context) (fn : Context → App.Settled) :
  let h := App.handleRequest statuses c fn in
  let answered := res_finished (ctx_res (App.h_ctx h)) = true
                  ∨ is_Some (res_piped (ctx_res (App.h_ctx h))) in
  Js.ostr_truthy (status_message statuses 500) = true →
  (∀ c1, fn (App.prepare c) = App.Fulfilled c1 →
     ctx_respond c1 ≠ Js.Bool false → Response.writable c1 = true →
     headersSent (ctx_res c1) = false →
     answered ∧ App.h_completion h = Returned) ∧
  (∀ t e c1, fn (App.prepare c) = App.Rejected t c1 → Ctx.normalize t = Some e →
     headersSent (ctx_res c1) = false → Response.writable c1 = true →
     res_finished (ctx_res (App.h_ctx h)) = true ∧
     App.h_completion h = Returned ∧
     App.h_emitted h = [(e, c1)]) ∧
  (∀ c1, fn (App.prepare c) = App.Rejected ThrownNullish c1 →
     h = App.mkHandled c1 [] Returned).
Proof.
  intros h answered H500. unfold answered, h, App.handleRequest. split_and!.
  - intros c1 Hf Hr Hw Hh. rewrite Hf.
    pose proof (respond_outcome c1 Hr Hw) as Hout.
    destruct (App.respond statuses c1) as [c2 [|e]]; cbn [fst snd] in Hout.
    + by cbn.
    + destruct Hout as [-> [m ->]].
      unfold Ctx.onerror. cbn [Ctx.normalize].
      destruct (outward_some statuses (Ctx.new_Error m) H500) as [msg Hmsg].
      rewrite (recover_unsent statuses (Ctx.new_Error m) c1 msg Hh Hw Hmsg).
      cbn. by split; [left|].
  - intros t e c1 Hf Hn Hh Hw. rewrite Hf. unfold Ctx.onerror. rewrite Hn.
    destruct (outward_some statuses e H500) as [msg Hmsg].
    by rewrite (recover_unsent statuses e c1 msg Hh Hw Hmsg).
  - intros c1 Hf. by rewrite Hf.
Qed.

End MoreDispatch.

(** * The further theorems at concrete requests *)

(** The host [a.b.example.com:3000]. *)
Lemma hostname_drops_port_witness :
  Request.host nested_host = "a.b.example.com:3000" ∧
  (Request.hostname new_URL nested_host).1 = "a.b.example.com" ∧
  contains ":" (Request.hostname new_URL nested_host).1 = false ∧
  ∃ rest, Request.host nested_host
          = (Request.hostname new_URL nested_host).1 +:+ rest ∧ cut_at ":" rest.
Proof.
  destruct (hostname_drops_port new_URL nested_host) as (H & Hcut & _).
  - intros rest Hr. vm_compute in Hr. discriminate Hr.
  - split_and!; [reflexivity|reflexivity|exact H|exact Hcut].
Defined.

(** The forwarded-for header ["1.2.3.4, 5.6.7.8"] under proxy trust. *)
Lemma ips_entries_witness :
  count "," "1.2.3.4, 5.6.7.8" = 1%nat ∧
  ∃ l, Request.ips trusted_ctx = Value l ∧ length l = 2%nat.
Proof.
  destruct (ips_entries trusted_ctx) as [_ H].
  destruct (H "1.2.3.4, 5.6.7.8" eq_refl eq_refl eq_refl) as (l & Hl & Hn).
  { vm_compute. discriminate. }
  split; [reflexivity|]. exists l. split; [exact Hl|exact Hn].
Defined.

(** A request without a content type, and one with a charset parameter. *)
Lemma type_without_parameters_witness :
  req_headers (ctx_req plain_ctx) !! "content-type" = None ∧
  Request.type plain_ctx = "" ∧
  Request.type Cases.posted = "text/plain" ∧
  ∃ rest, Request.get_text "Content-Type" Cases.posted
          = Request.type Cases.posted +:+ rest ∧ cut_at ";" rest.
Proof.
  destruct (type_without_parameters plain_ctx) as (_ & _ & _ & H).
  destruct (type_without_parameters Cases.posted) as (_ & _ & Hc & _).
  split_and!; [reflexivity|exact (H eq_refl)|reflexivity|exact Hc].
Defined.

(** The host [a.b.example.com] has four labels, two beyond the default
    offset. *)
Lemma subdomains_are_labels_witness :
  0 ≤ subdomainOffset (ctx_app nested_host) ∧
  isIP (Request.hostname new_URL nested_host).1 = 0 ∧
  (Request.subdomains new_URL isIP nested_host).1 = ["b"; "a"] ∧
  ∃ kept, (Request.hostname new_URL nested_host).1
          = dotted (rev (Request.subdomains new_URL isIP nested_host).1 ++ kept)
          ∧ length kept = 2%nat.
Proof.
  destruct (subdomains_are_labels new_URL isIP nested_host) as (_ & H & _).
  assert (0 ≤ subdomainOffset (ctx_app nested_host)) as H0
    by (vm_compute; discriminate).
  destruct (H H0 eq_refl) as (kept & Hd & _ & Hk & _).
  split_and!; [exact H0|reflexivity|reflexivity|].
  exists kept. split; [exact Hd|exact Hk].
Defined.

(** A plain socket behind a trusted proxy that reports ["https, http"]. *)
Lemma secure_iff_witness :
  encrypted (Request.socket Cases.proxied_https) = false ∧
  proxy (ctx_app Cases.proxied_https) = true ∧
  Request.secure Cases.proxied_https = true.
Proof.
  split_and!; [reflexivity|reflexivity|].
  apply (proj2 (secure_iff Cases.proxied_https)).
  right. split; [reflexivity|]. exists "https, http". split; reflexivity.
Defined.

(** A client forges both forwarded headers on a direct request. *)
Lemma forwarded_headers_need_trust_witness :
  proxy (ctx_app Cases.direct) = false ∧
  Cases.forged !! "x-forwarded-host" = Some "evil.example" ∧
  Request.host (Request.set_header Cases.forged Cases.direct) = "site.example:3000" ∧
  Request.protocol (Request.set_header Cases.forged Cases.direct) = "http".
Proof.
  destruct (forwarded_headers_need_trust Cases.direct Cases.forged eq_refl)
    as (Hp & Hh & _).
  - intros k H1 H2. unfold Cases.forged.
    rewrite lookup_insert_ne by (intros E; exact (H2 (eq_sym E))).
    rewrite lookup_insert_ne by (intros E; exact (H1 (eq_sym E))).
    reflexivity.
  - split_and!; [reflexivity|reflexivity|rewrite Hh; reflexivity
                |rewrite Hp; reflexivity].
Defined.

(** A conditional GET that is fresh, and a POST. *)
Lemma idempotent_methods_witness :
  Request.fresh fresh_check conditional_get = true ∧
  Request.idempotent conditional_get = true ∧
  Request.idempotent Cases.posted = false.
Proof.
  destruct (idempotent_methods fresh_check conditional_get) as [_ H].
  split_and!; [reflexivity|exact (H eq_refl)|reflexivity].
Defined.

(** An address assigned over a forwarded one. *)
Lemma ip_override_witness :
  Request.ip trusted_ctx
  = Value ("1.2.3.4", with_ip_slot (Some "1.2.3.4") trusted_ctx) ∧
  Request.ip (Request.set_ip "9.9.9.9" trusted_ctx)
  = Value ("9.9.9.9", Request.set_ip "9.9.9.9" trusted_ctx) ∧
  ∃ c', Request.ip (Request.set_ip "" trusted_ctx) = Value ("1.2.3.4", c').
Proof.
  destruct (ip_override trusted_ctx) as (H1 & _ & H2 & _).
  destruct (H2 ["1.2.3.4"; "5.6.7.8"] eq_refl) as [c' Hc'].
  split_and!; [reflexivity| |by exists c'].
  rewrite H1; [reflexivity|discriminate].
Defined.

(** A request in absolute form with an upper-case scheme. *)
Lemma href_keeps_original_witness :
  Js.has_http_scheme (originalUrl Cases.absolute) = true ∧
  Request.href Cases.absolute = "HTTP://example.com/x?y=1" ∧
  Request.href (Request.set_url "/other" Cases.absolute) = "HTTP://example.com/x?y=1".
Proof.
  destruct (href_keeps_original parse stringify qs_stringify Cases.absolute)
    as (_ & H & Hu & _).
  split_and!; [reflexivity|rewrite (H eq_refl); reflexivity|].
  rewrite Hu, (H eq_refl). reflexivity.
Defined.

(** The first read of the query [sort=desc] on an empty cache. *)
Lemma query_cache_coherent_witness :
  coherent qs_parse (Query.querycache Cases.uncached) ∧
  Query.querystring parse (Query.cached_ctx Cases.uncached) = "sort=desc" ∧
  (Query.query parse qs_parse Cases.inherited Cases.uncached).1
    = Query.ParsedQuery {[ "sort" := QStr "desc" ]} ∧
  Query.query parse qs_parse Cases.inherited
    (Query.query parse qs_parse Cases.inherited Cases.uncached).2
  = Query.query parse qs_parse Cases.inherited Cases.uncached.
Proof.
  assert (coherent qs_parse (Query.querycache Cases.uncached)) as Hc.
  { intros k m H. cbn in H. rewrite lookup_empty in H. discriminate H. }
  destruct (query_cache_coherent parse qs_parse Cases.inherited Cases.uncached Hc)
    as (_ & _ & _ & H & _).
  destruct (H eq_refl) as [Hv Hagain].
  split_and!; [exact Hc|reflexivity|rewrite Hv; vm_compute; reflexivity|].
  rewrite Hagain. by destruct (Query.query _ _ _ _).
Defined.

(** An offset option of zero. *)
Lemma constructor_defaults_witness :
  opt_subdomainOffset Cases.zero_offset = Some 0 ∧
  subdomainOffset (App.constructor None Cases.zero_offset) = 2.
Proof.
  destruct (constructor_defaults None Cases.zero_offset) as (_ & _ & _ & _ & H & _).
  split; [reflexivity|exact (H eq_refl)].
Defined.

(** An exposable error is not printed. *)
Lemma default_listener_quiet_witness :
  Js.truthy (err_expose teapot) = true ∧
  App.onerror "undefined" (settings false) (ThrownError teapot) Cases.trace
  = App.Quiet.
Proof.
  split; [reflexivity|].
  apply (proj2 (proj1 (default_listener_quiet "undefined" (settings false) teapot
                         Cases.trace))).
  right. left. reflexivity.
Defined.

(** A trace of two lines. *)
Lemma default_listener_prints_indented_witness :
  contains "013" Cases.trace = false ∧
  App.onerror "undefined" (settings false) (ThrownError Cases.vanished) Cases.trace
  = App.Prints (Js.LF +:+ "  Error: boom" +:+ Js.LF +:+ "      at handler" +:+ Js.LF).
Proof.
  assert (err_status Cases.vanished ≠ Js.Num 404) as H4 by discriminate.
  split; [reflexivity|].
  rewrite (default_listener_prints_indented "undefined" (settings false)
             Cases.vanished Cases.trace eq_refl H4 eq_refl eq_refl).
  reflexivity.
Defined.

(** A file error with status 403 is answered with 404, a status of the
    table. *)
Lemma recovery_status_is_known_witness :
  Js.ostr_truthy (status_message statuses 500) = true ∧
  Response.headerSent plain_ctx = false ∧
  Response.writable plain_ctx = true ∧
  ∃ phrase, phrase ≠ "" ∧
    status_message statuses
      (Response.status
         (Ctx.rec_ctx (Ctx.onerror statuses (ThrownError missing_file) plain_ctx)))
    = Some phrase.
Proof.
  destruct (recovery_status_is_known statuses (ThrownError missing_file)
              missing_file plain_ctx eq_refl eq_refl eq_refl eq_refl)
    as (p & Hp & Hs & _).
  split_and!; [reflexivity|reflexivity|reflexivity|].
  exists p. split; [exact Hp|exact Hs].
Defined.

(** An exposable error on a response with a staged request id and a JSON
    content type. *)
Lemma recovery_resets_headers_witness :
  Response.header Cases.staged_ctx !! "x-request-id" = Some "7" ∧
  Response.header
    (Ctx.rec_ctx (Ctx.onerror statuses (ThrownError teapot) Cases.staged_ctx))
    !! "x-request-id" = None ∧
  Response.header
    (Ctx.rec_ctx (Ctx.onerror statuses (ThrownError teapot) Cases.staged_ctx))
    !! "content-type" = Some "text/plain; charset=utf-8".
Proof.
  destruct (recovery_resets_headers statuses (ThrownError teapot) teapot
              Cases.staged_ctx "teapot" eq_refl eq_refl eq_refl eq_refl)
    as (_ & Ht & _ & Hk).
  split_and!; [reflexivity| |exact Ht].
  apply Hk; [discriminate|discriminate|].
  exact (not_elem_of_nil _).
Defined.

(** A handler throws the number 1234. *)
Lemma non_error_is_not_shown_witness :
  status_message statuses 500 = Some "Internal Server Error" ∧
  Response.status
    (Ctx.rec_ctx (Ctx.onerror statuses (ThrownNonError "1234") plain_ctx)) = 500 ∧
  res_sent (ctx_res
    (Ctx.rec_ctx (Ctx.onerror statuses (ThrownNonError "1234") plain_ctx)))
  = [Text "Internal Server Error"].
Proof.
  destruct (non_error_is_not_shown statuses "1234" plain_ctx
              "Internal Server Error" eq_refl eq_refl eq_refl) as (Hs & Hb & _).
  split_and!; [reflexivity|exact Hs|exact Hb].
Defined.

(** A file error without a status: answered with 404 and printed. *)
Lemma listener_sees_error_as_thrown_witness :
  err_code Cases.vanished = Js.Str "ENOENT" ∧
  Response.status
    (Ctx.rec_ctx (Ctx.onerror statuses (ThrownError Cases.vanished) plain_ctx))
  = 404 ∧
  App.onerror "undefined" (ctx_app plain_ctx) (ThrownError Cases.vanished)
    Cases.trace
  = App.Prints (Js.LF +:+ Js.indent_lines Cases.trace +:+ Js.LF).
Proof.
  destruct (listener_sees_error_as_thrown statuses "undefined" Cases.vanished
              plain_ctx Cases.trace eq_refl eq_refl) as [_ H].
  destruct (H eq_refl eq_refl eq_refl eq_refl eq_refl) as [Hs Hall].
  split_and!; [reflexivity|exact Hs|].
  apply (Hall (Cases.vanished, plain_ctx)).
  apply list_elem_of_here.
Defined.

(** A handler that took over the response: the finalizer does nothing. *)
Lemma respond_frame_witness :
  ctx_respond Cases.bypassed = Js.Bool false ∧
  App.respond statuses Cases.bypassed = (Cases.bypassed, Returned).
Proof.
  destruct (respond_frame statuses Cases.bypassed) as (_ & _ & _ & _ & _ & H).
  split; [reflexivity|exact (H (or_introl eq_refl))].
Defined.

(** A chain that sets nothing: the body is the reason phrase of 404. *)
Lemma respond_fallback_body_witness :
  Response.status Cases.untouched = 404 ∧
  body_slot Cases.untouched = BodyUndefined ∧
  res_sent (ctx_res (App.respond statuses Cases.untouched).1) = [Text "Not Found"] ∧
  Response.header (App.respond statuses Cases.untouched).1 !! "content-length"
  = Some "9".
Proof.
  assert (ctx_respond Cases.untouched ≠ Js.Bool false) as Hr by discriminate.
  assert (Request.method Cases.untouched ≠ "HEAD") as Hm by discriminate.
  destruct (respond_fallback_body statuses Cases.untouched Hr eq_refl eq_refl Hm
              (or_intror eq_refl) eq_refl) as (_ & _ & Hs & _ & Hh).
  destruct (Hh eq_refl) as [_ Hl].
  split_and!; [reflexivity|reflexivity|exact Hs|exact Hl].
Defined.

(** A structured body whose JSON text has seven bytes. *)
Lemma respond_length_matches_payload_witness :
  body_slot Cases.listing = BodyObject (JsonText "[1,2,3]") ∧
  payload_bytes (ctx_res (App.respond statuses Cases.listing).1) = 7 ∧
  Response.header (App.respond statuses Cases.listing).1 !! "content-length"
  = Some "7".
Proof.
  assert (ctx_respond Cases.listing ≠ Js.Bool false) as Hr by discriminate.
  assert (Request.method Cases.listing ≠ "HEAD") as Hm by discriminate.
  destruct (respond_length_matches_payload statuses Cases.listing Hr eq_refl
              eq_refl eq_refl Hm
              (or_intror (or_intror (ex_intro _ "[1,2,3]" eq_refl))))
    as (_ & _ & Hl).
  split_and!; [reflexivity|reflexivity|exact Hl].
Defined.

(** A chain that stages a body which cannot be serialized is answered with
    500. *)
Lemma handleRequest_answers_witness :
  Js.ostr_truthy (status_message statuses 500) = true ∧
  (res_finished (ctx_res (App.h_ctx
     (App.handleRequest statuses plain_ctx Cases.circular_chain))) = true
   ∨ is_Some (res_piped (ctx_res (App.h_ctx
       (App.handleRequest statuses plain_ctx Cases.circular_chain))))) ∧
  App.h_completion (App.handleRequest statuses plain_ctx Cases.circular_chain)
  = Returned ∧
  Response.status (App.h_ctx
    (App.handleRequest statuses plain_ctx Cases.circular_chain)) = 500.
Proof.
  destruct (handleRequest_answers statuses plain_ctx Cases.circular_chain eq_refl)
    as (H & _ & _).
  assert (ctx_respond
            (with_body_slot (BodyObject (JsonThrows "circular structure"))
               (App.prepare plain_ctx)) ≠ Js.Bool false) as Hr by discriminate.
  destruct (H _ eq_refl Hr eq_refl eq_refl) as [Ha Hc].
  split_and!; [reflexivity|exact Ha|exact Hc|reflexivity].
Defined.
